(** * rotkelchen.rotkelchen: the [Rotkelchen] class

    A shallow embedding of [src/rotkelchen/rotkelchen.py]: balance
    aggregation and valuation ([query_fiat_balances], [query_balances]),
    the registration of an exchange ([setup_exchange]) and the main loop
    ([main_loop]).

    Python dictionaries are finite maps ([gmap string _]); the one dictionary
    whose iteration order is observable (the accountant's [details], walked
    inside a [try] block) is a list of items.  Exceptions are a sum type
    [result]; the instance attributes of [Rotkelchen] are a record that is
    passed in and returned.  Calls into other modules of the package are
    fields of the record [Collaborators].  Logging is left out. *)

From Stdlib Require Import QArith Qcanon Qround.
From stdpp Require Import base numbers list strings pretty gmap.

Local Open Scope Qc_scope.

(** ** Values and exceptions *)

(** Modelled from the spec: the class [FVal] of [rotkelchen.fval] is not part
    of the sources.  The spec's data model calls amounts and values
    [decimal] and requires their sum to be commutative and associative, so
    an [FVal] is an exact number: a rational in canonical form. *)
Abbreviation FVal := Qc.

(** [FVal(0)] and the integer literal [100] as [FVal]s. *)
Definition FVal_0 : FVal := 0.
Definition FVal_100 : FVal := Qc_of_Z 100.

(** The exceptions that the modelled code can meet. [DecimalException] is
    what a division by zero of decimals raises. *)
Inductive exn : Type :=
  | AttributeError
  | DecimalException
  | TypeError
  | NotImplementedError.

Global Instance exn_eq_dec : EqDecision exn.
Proof. solve_decision. Defined.

Inductive result (A : Type) : Type :=
  | Ok (a : A)
  | Raise (e : exn).
Arguments Ok {A} a.
Arguments Raise {A} e.

Global Instance result_ret : MRet result := λ A a, Ok a.
Global Instance result_bind : MBind result := λ A B f m,
  match m with
  | Ok a => f a
  | Raise e => Raise e
  end.

(** Modelled from the spec: [FVal.__truediv__] is not part of the sources.
    The spec classes a zero divisor as a division-by-zero condition, so the
    quotient by zero raises. *)
Definition fval_div (a b : FVal) : result FVal :=
  if decide (b = FVal_0) then Raise DecimalException else Ok (a / b).

(** An object handed over by a collaborator whose class the sources do not
    fix: an [FVal], or some other object on which the operators of [FVal]
    fail with the exception [raises]. *)
Inductive pyobj : Type :=
  | PyFVal (x : FVal)
  | PyOther (raises : exn).

(** ** Balances *)

(** One asset of one source: [{'amount': _, 'usd_value': _}]. *)
Record Balance : Type := mkBalance {
  amount : FVal;
  usd_value : FVal;
}.

Global Instance Balance_eq_dec : EqDecision Balance.
Proof. solve_decision. Defined.

(** The value of [percent_change]: a number or the string ['INF']. *)
Inductive percent : Type :=
  | PercentNum (x : FVal)
  | PercentStr (s : string).

(** One asset of the result: the summed balance, its share of the net value
    and the fields that the tax overlay attaches. *)
Record Entry : Type := mkEntry {
  entry_amount : FVal;
  entry_usd_value : FVal;
  percentage_of_net_value : string;
  tax_free_amount : option pyobj;
  average_buy_value : option pyobj;
  percent_change : option percent;
}.

(** One source of [stats['location']]. *)
Record Location : Type := mkLocation {
  loc_usd_value : FVal;
  loc_percentage_of_net_value : string;
}.

(** Modelled from the spec: [merge_dicts] of [rotkelchen.utils] is not part
    of the sources.  [result_dict = merge_dicts(combined, stats)] is the
    spec's PortfolioSnapshot: the combined assets, the [location] breakdown
    and the scalar [net_usd]; asset symbols and the two keys of [stats] are
    kept apart. *)
Record Snapshot : Type := mkSnapshot {
  combined : gmap string Entry;
  location : gmap string Location;
  net_usd : FVal;
}.

(** The sum of one field over the values of a dictionary. *)
Definition sum_over {A : Type} (field : A → FVal) (d : gmap string A) : FVal :=
  map_fold (λ _ v sum, sum + field v) FVal_0 d.

(** ** rotkelchen.utils *)

Module utils.

(** Modelled from the spec: the sum of two balances of one asset, [amount]
    with [amount] and [usd_value] with [usd_value], and the merge of two
    sources with it. *)
Definition add_entries (a b : Balance) : Balance :=
  {| amount := amount a + amount b; usd_value := usd_value a + usd_value b |}.

Definition combine_dicts (a b : gmap string Balance) : gmap string Balance :=
  union_with (λ x y, Some (add_entries x y)) a b.

(** Modelled from the spec: [combine_stat_dicts] of [rotkelchen.utils] is
    not part of the sources.  For every asset that appears in at least one
    source it sums [amount] and [usd_value] across the sources that
    contain it; no source, or a source without assets, contributes
    nothing. *)
Definition combine_stat_dicts (list_of_dicts : list (gmap string Balance))
    : gmap string Balance :=
  foldl combine_dicts ∅ list_of_dicts.

(** Modelled from the spec: [dict_get_sumof] of [rotkelchen.utils] is not
    part of the sources.  [dict_get_sumof(v, 'usd_value')] is the sum of
    [usd_value] over the assets of one source. *)
Definition dict_get_sumof {A : Type} (d : gmap string A)
    (attribute : A → FVal) : FVal :=
  sum_over attribute d.

End utils.

(** ** Collaborators *)

(** The four exchange classes: [Kraken], [Poloniex], [Bittrex], [Binance]. *)
Inductive exchange_class : Type :=
  | Kraken
  | Poloniex
  | Bittrex
  | Binance.

Global Instance exchange_class_eq_dec : EqDecision exchange_class.
Proof. solve_decision. Defined.

(** An exchange object as the constructors build it: its class and the
    encoded key and secret (the other constructor arguments are fixed
    attributes of the instance). *)
Record Client : Type := mkClient {
  client_class : exchange_class;
  client_api_key : string;
  client_api_secret : string;
}.

Global Instance Client_eq_dec : EqDecision Client.
Proof. solve_decision. Defined.

(** What the modules outside [rotkelchen.py] answer when they are called.
    - [to_percentage]: the method [FVal.to_percentage];
    - [client_query_balances], [client_validate_api_key]: the methods
      [query_balances] and [validate_api_key] of an exchange object;
    - [blockchain_totals]: [self.blockchain.query_balances()['totals']];
    - [FIAT_CURRENCIES]: the constant of [rotkelchen.inquirer];
    - [personal_fiat]: [self.data.personal['fiat']], read as [FVal]s;
    - [query_fiat_pair]: the function of [rotkelchen.utils];
    - [accountant_details]: [self.data.accountant.details] as the list of
      its items, [None] when the accountant has no such attribute yet. *)
Record Collaborators : Type := mkCollaborators {
  to_percentage : FVal → string;
  client_query_balances : Client → gmap string Balance;
  client_validate_api_key : Client → bool * string;
  blockchain_totals : gmap string Balance;
  FIAT_CURRENCIES : list string;
  personal_fiat : gmap string FVal;
  query_fiat_pair : string → string → FVal;
  accountant_details : option (list (string * (pyobj * pyobj)));
}.

(** ** The instance *)

(** The attributes of a [Rotkelchen] object that the modelled methods read
    or write. [secret_file] is the file at [self.secret_name]: [None] when
    [os.path.isfile] is false, else the dictionary last dumped into it. *)
Record Rotkelchen : Type := mkRotkelchen {
  connected_exchanges : list string;
  sleep_secs : Z;
  secret_data : gmap string string;
  secret_file : option (gmap string string);
  poloniex : option Client;
  kraken : option Client;
  bittrex : option Client;
  binance : option Client;
}.

(** [getattr(self, exchange)] for the names of the exchange attributes. *)
Definition getattr_exchange (self : Rotkelchen) (name : string)
    : result (option Client) :=
  if decide (name = "poloniex") then Ok (poloniex self)
  else if decide (name = "kraken") then Ok (kraken self)
  else if decide (name = "bittrex") then Ok (bittrex self)
  else if decide (name = "binance") then Ok (binance self)
  else Raise AttributeError.

(** [setattr(self, name, exchange)] for the same names. *)
Definition setattr_exchange (self : Rotkelchen) (name : string)
    (exchange : Client) : Rotkelchen :=
  {| connected_exchanges := connected_exchanges self;
     sleep_secs := sleep_secs self;
     secret_data := secret_data self;
     secret_file := secret_file self;
     poloniex :=
       if decide (name = "poloniex") then Some exchange else poloniex self;
     kraken :=
       if decide (name = "kraken") then Some exchange else kraken self;
     bittrex :=
       if decide (name = "bittrex") then Some exchange else bittrex self;
     binance :=
       if decide (name = "binance") then Some exchange else binance self |}.

(** ** main_loop (lines 150-159) *)

(** What a pass of the loop does to the outside: the call of the
    [main_logic] of an exchange object, and [gevent.sleep]. *)
Inductive event : Type :=
  | MainLogic (exchange : Client)
  | Sleep (seconds : Z).

(** One pass through the body of the [while] loop. *)
Definition main_loop_body (self : Rotkelchen) : list event :=
  match poloniex self with Some c => [MainLogic c] | None => [] end ++
  match kraken self with Some c => [MainLogic c] | None => [] end ++
  [Sleep 10].

(** The loop, driven by what [self.shutdown_event.is_set()] answers at the
    top of each pass (the loop goes on as long as answers are supplied). *)
Fixpoint main_loop (self : Rotkelchen) (is_set : list bool) : list event :=
  match is_set with
  | false :: later => main_loop_body self ++ main_loop self later
  | _ => []
  end.

(** ** query_fiat_balances (lines 164-175) *)

Definition query_fiat_balances (env : Collaborators) : gmap string Balance :=
  foldl
    (λ result currency,
       match personal_fiat env !! currency with
       | Some amount =>
           let usd_rate := query_fiat_pair env currency "USD" in
           <[currency := {| amount := amount;
                            usd_value := amount * usd_rate |}]> result
       | None => result
       end)
    ∅ (FIAT_CURRENCIES env).

(** ** query_balances (lines 177-236) *)

(** [getattr(self, exchange).query_balances()]. *)
Definition exchange_query_balances (env : Collaborators) (self : Rotkelchen)
    (exchange : string) : result (gmap string Balance) :=
  attr ← getattr_exchange self exchange;
  match attr with
  | Some c => Ok (client_query_balances env c)
  | None => Raise AttributeError
  end.

(** The loop over [self.connected_exchanges] that fills [balances]. *)
Fixpoint query_exchanges (env : Collaborators) (self : Rotkelchen)
    (exchanges : list string) (balances : gmap string (gmap string Balance))
    : result (gmap string (gmap string Balance)) :=
  match exchanges with
  | [] => Ok balances
  | exchange :: rest =>
      b ← exchange_query_balances env self exchange;
      query_exchanges env self rest (<[exchange := b]> balances)
  end.

(** A [for] loop over the items of a dictionary that stores one computed
    value per key and stops at the first exception. *)
Fixpoint for_items {A B : Type} (f : A → result B)
    (items : list (string * A)) (d : gmap string B) : result (gmap string B) :=
  match items with
  | [] => Ok d
  | (k, v) :: rest => y ← f v; for_items f rest (<[k := y]> d)
  end.

(** The value stored in [stats['location'][name]]. *)
Definition location_of (env : Collaborators) (net_usd total : FVal)
    : result Location :=
  ratio ← fval_div total net_usd;
  mret {| loc_usd_value := total;
          loc_percentage_of_net_value := to_percentage env ratio |}.

(** A combined asset once [percentage_of_net_value] is stored in it. *)
Definition entry_of (env : Collaborators) (net_usd : FVal) (v : Balance)
    : result Entry :=
  ratio ← fval_div (usd_value v) net_usd;
  mret {| entry_amount := amount v;
          entry_usd_value := usd_value v;
          percentage_of_net_value := to_percentage env ratio;
          tax_free_amount := None;
          average_buy_value := None;
          percent_change := None |}.

(** The entries that the two loops of the valuation store when [net_usd]
    is not zero. *)
Definition location_at (env : Collaborators) (net_usd total : FVal)
    : Location :=
  {| loc_usd_value := total;
     loc_percentage_of_net_value := to_percentage env (total / net_usd) |}.

Definition entry_at (env : Collaborators) (net_usd : FVal) (v : Balance)
    : Entry :=
  {| entry_amount := amount v;
     entry_usd_value := usd_value v;
     percentage_of_net_value := to_percentage env (usd_value v / net_usd);
     tax_free_amount := None;
     average_buy_value := None;
     percent_change := None |}.

(** [net_usd] as the loop over [combined.items()] accumulates it. *)
Definition sum_usd_value (combined : gmap string Balance) : FVal :=
  map_fold (λ _ v net_usd, net_usd + usd_value v) FVal_0 combined.

(** From [combined = combine_stat_dicts(...)] to [result_dict]. The second
    loop stores a field in every entry of [combined]; an exception in it
    leaves the function, so the entries are built anew. *)
Definition valuation (env : Collaborators)
    (balances : gmap string (gmap string Balance)) : result Snapshot :=
  let combined := utils.combine_stat_dicts (map_to_list balances).*2 in
  let total_usd_per_location :=
    (λ kv, (kv.1, utils.dict_get_sumof kv.2 usd_value))
      <$> map_to_list balances in
  let net_usd := sum_usd_value combined in
  location ← for_items (location_of env net_usd) total_usd_per_location ∅;
  combined ← for_items (entry_of env net_usd) (map_to_list combined) ∅;
  mret {| combined := combined; location := location; net_usd := net_usd |}.

(** [result_dict[asset] = e], for an asset of the result. *)
Definition set_combined (result_dict : Snapshot) (asset : string) (e : Entry)
    : Snapshot :=
  {| combined := <[asset := e]> (combined result_dict);
     location := location result_dict;
     net_usd := net_usd result_dict |}.

(** The body of the loop over [details.items()]. An exception leaves the
    assignments made before it in place. *)
Definition overlay_asset (result_dict : Snapshot)
    (item : string * (pyobj * pyobj)) : Snapshot * option exn :=
  let '(asset, (tax_free, average_buy)) := item in
  match combined result_dict !! asset with
  | None => (result_dict, None)
  | Some e =>
      let e :=
        {| entry_amount := entry_amount e;
           entry_usd_value := entry_usd_value e;
           percentage_of_net_value := percentage_of_net_value e;
           tax_free_amount := Some tax_free;
           average_buy_value := Some average_buy;
           percent_change := percent_change e |} in
      let result_dict := set_combined result_dict asset e in
      match fval_div (entry_usd_value e) (entry_amount e) with
      | Raise exc => (result_dict, Some exc)
      | Ok current_price =>
          match average_buy with
          | PyOther exc => (result_dict, Some exc)
          | PyFVal average_buy_value =>
              let set_percent_change p :=
                set_combined result_dict asset
                  {| entry_amount := entry_amount e;
                     entry_usd_value := entry_usd_value e;
                     percentage_of_net_value := percentage_of_net_value e;
                     tax_free_amount := tax_free_amount e;
                     average_buy_value := Some average_buy;
                     percent_change := Some p |} in
              if decide (average_buy_value ≠ FVal_0) then
                match fval_div (current_price - average_buy_value)
                               average_buy_value with
                | Raise exc => (result_dict, Some exc)
                | Ok change =>
                    (set_percent_change (PercentNum (change * FVal_100)), None)
                end
              else (set_percent_change (PercentStr "INF"), None)
          end
      end
  end.

(** The [percent_change] that the overlay is to store for an asset of the
    result, given the average buy value that the accountant reports. *)
Definition percent_change_of (e : Entry) (average_buy_value : FVal)
    : percent :=
  if decide (average_buy_value = FVal_0) then PercentStr "INF"
  else
    PercentNum
      (((entry_usd_value e / entry_amount e - average_buy_value)
          / average_buy_value) * FVal_100).

(** The loop over [details.items()]. *)
Fixpoint overlay (details : list (string * (pyobj * pyobj)))
    (result_dict : Snapshot) : Snapshot * option exn :=
  match details with
  | [] => (result_dict, None)
  | item :: rest =>
      match overlay_asset result_dict item with
      | (result_dict, None) => overlay rest result_dict
      | (result_dict, Some exc) => (result_dict, Some exc)
      end
  end.

(** The body of the [try] block: reading [self.data.accountant.details]
    raises [AttributeError] when the attribute is not there yet, else the
    loop runs. *)
Definition overlay_body (env : Collaborators) (result_dict : Snapshot)
    : Snapshot * option exn :=
  match accountant_details env with
  | None => (result_dict, Some AttributeError)
  | Some details => overlay details result_dict
  end.

(** The [try ... except AttributeError: pass] block. *)
Definition try_overlay (env : Collaborators) (result_dict : Snapshot)
    : result Snapshot :=
  match overlay_body env result_dict with
  | (result_dict, None) => Ok result_dict
  | (result_dict, Some AttributeError) => Ok result_dict
  | (_, Some exc) => Raise exc
  end.

(** The dictionary [balances] once every source is queried. *)
Definition query_sources (env : Collaborators) (self : Rotkelchen)
    : result (gmap string (gmap string Balance)) :=
  balances ← query_exchanges env self (connected_exchanges self) ∅;
  mret (<["banks" := query_fiat_balances env]>
          (<["blockchain" := blockchain_totals env]> balances)).

(** What [self.data.save_balances_data] receives, if it is called. *)
Definition saved_balances_data (env : Collaborators) (self : Rotkelchen)
    (save_data : bool) : option Snapshot :=
  match query_sources env self ≫= valuation env with
  | Ok result_dict => if save_data then Some result_dict else None
  | Raise _ => None
  end.

(** The method: the sources are queried, the result is valued and, after
    the hand-over to [save_balances_data], overlaid with the tax data. *)
Definition query_balances (env : Collaborators) (self : Rotkelchen)
    (save_data : bool) : result Snapshot :=
  balances ← query_sources env self;
  result_dict ← valuation env balances;
  try_overlay env result_dict.

(** ** setup_exchange (lines 260-314) *)

(** The constructor that the chain of comparisons on [name] selects. *)
Definition exchange_class_of (name : string) : option exchange_class :=
  if decide (name = "kraken") then Some Kraken
  else if decide (name = "poloniex") then Some Poloniex
  else if decide (name = "bittrex") then Some Bittrex
  else if decide (name = "binance") then Some Binance
  else None.

(** ['{}_api_key'.format(name)] and ['{}_secret'.format(name)]. *)
Definition api_key_of (name : string) : string := name +:+ "_api_key".
Definition secret_of (name : string) : string := name +:+ "_secret".

(** The method: the returned pair and the instance after the call. *)
Definition setup_exchange (env : Collaborators) (self : Rotkelchen)
    (name api_key api_secret : string) : (bool * string) * Rotkelchen :=
  if decide (is_Some (secret_data self !! api_key_of name)) then
    ((false, "Exchange {} is already registered"), self)
  else if decide (secret_file self = None) then
    ((false, "The secret file can not be found"), self)
  else
    match exchange_class_of name with
    | None =>
        ((false, "Attempted to register unsupported exchange " +:+ name), self)
    | Some class =>
        let exchange := mkClient class api_key api_secret in
        let '(result, message) := client_validate_api_key env exchange in
        if negb result then ((false, message), self)
        else
          let self := setattr_exchange self name exchange in
          let secret_data :=
            <[secret_of name := api_secret]>
              (<[api_key_of name := api_key]> (secret_data self)) in
          ((true, ""),
           {| connected_exchanges := connected_exchanges self ++ [name];
              sleep_secs := sleep_secs self;
              secret_data := secret_data;
              secret_file := Some secret_data;
              poloniex := poloniex self;
              kraken := kraken self;
              bittrex := bittrex self;
              binance := binance self |})
    end.

(** ** Sample data *)

(** The value that a computation returns, or a default if it raises. *)
Definition from_Ok {A : Type} (default : A) (r : result A) : A :=
  match r with
  | Ok a => a
  | Raise _ => default
  end.

(** A rendering of a ratio as a percentage, for the examples: the whole
    part of the percentage followed by a percent sign. *)
Definition sample_to_percentage (x : FVal) : string :=
  pretty (Qfloor (x * FVal_100)%Qc) +:+ "%".

Definition sample_kraken : Client := mkClient Kraken "key" "secret".

(** The spec's example: kraken holds one BTC worth 10000, the bank
    holds 500 USD; the accountant's [details] are left open. *)
Definition sample_env
    (details : option (list (string * (pyobj * pyobj)))) : Collaborators :=
  {| to_percentage := sample_to_percentage;
     client_query_balances := λ _,
       {[ "BTC" := mkBalance 1 (Qc_of_Z 10000) ]};
     client_validate_api_key := λ _, (false, "Invalid API key");
     blockchain_totals := ∅;
     FIAT_CURRENCIES := ["EUR"; "USD"];
     personal_fiat := {[ "USD" := Qc_of_Z 500 ]};
     query_fiat_pair := λ _ _, 1;
     accountant_details := details |}.

(** An instance with kraken connected, started with [sleep_secs] at 20. *)
Definition sample_self : Rotkelchen :=
  {| connected_exchanges := ["kraken"];
     sleep_secs := 20;
     secret_data := {[ "kraken_api_key" := "key"; "kraken_secret" := "secret" ]};
     secret_file :=
       Some {[ "kraken_api_key" := "key"; "kraken_secret" := "secret" ]};
     poloniex := None;
     kraken := Some sample_kraken;
     bittrex := None;
     binance := None |}.

(** An instance without exchanges and without a secret file, and
    collaborators that report no asset at all. *)
Definition fresh_self : Rotkelchen :=
  {| connected_exchanges := [];
     sleep_secs := 20;
     secret_data := ∅;
     secret_file := None;
     poloniex := None;
     kraken := None;
     bittrex := None;
     binance := None |}.

Definition empty_env : Collaborators :=
  {| to_percentage := sample_to_percentage;
     client_query_balances := λ _, ∅;
     client_validate_api_key := λ _, (false, "Invalid API key");
     blockchain_totals := ∅;
     FIAT_CURRENCIES := ["EUR"; "USD"];
     personal_fiat := ∅;
     query_fiat_pair := λ _ _, 1;
     accountant_details := None |}.

(** An instance with all four exchanges connected. *)
Definition sample_all : Rotkelchen :=
  {| connected_exchanges := ["kraken"; "poloniex"; "bittrex"; "binance"];
     sleep_secs := 20;
     secret_data := ∅;
     secret_file := Some ∅;
     poloniex := Some (mkClient Poloniex "key" "secret");
     kraken := Some (mkClient Kraken "key" "secret");
     bittrex := Some (mkClient Bittrex "key" "secret");
     binance := Some (mkClient Binance "key" "secret") |}.

(** The accountant's [details] of the examples: BTC bought at 8000 and USD
    without a buy value; and the same with, for USD, a buy value that is an
    object without the attributes of an [FVal]. *)
Definition sample_details : list (string * (pyobj * pyobj)) :=
  [("BTC", (PyFVal 1, PyFVal (Qc_of_Z 8000)));
   ("USD", (PyFVal 0, PyFVal 0))].

Definition sample_details_broken : list (string * (pyobj * pyobj)) :=
  [("BTC", (PyFVal 1, PyFVal (Qc_of_Z 8000)));
   ("USD", (PyFVal 0, PyOther AttributeError))].

(** ** The other methods of the class *)

(** The exceptions of the methods below that the [try] block of
    [query_balances] does not know: a missing dictionary key, and a value
    that is not accepted ([list.remove] of an absent item, an illegal log
    level). *)
Inductive registry_exn : Type :=
  | KeyError (key : string)
  | ValueError.

Inductive outcome (A : Type) : Type :=
  | Returns (a : A)
  | Raises (e : registry_exn).
Arguments Returns {A} a.
Arguments Raises {A} e.

Global Instance outcome_ret : MRet outcome := λ A a, Returns a.
Global Instance outcome_bind : MBind outcome := λ A B f m,
  match m with
  | Returns a => f a
  | Raises e => Raises e
  end.

(** *** __init__ (lines 28-145) *)

(** The command line arguments that [__init__] reads. *)
Record Args : Type := mkArgs {
  logtarget : string;
  logfile : string;
  loglevel : string;
  logfromothermodules : bool;
  args_sleep_secs : Z;
}.

Inductive logging_level : Type :=
  | DEBUG
  | INFO
  | WARN
  | ERROR
  | CRITICAL.

(** The chain of comparisons on [args.loglevel]. *)
Definition loglevel_of (loglevel : string) : outcome logging_level :=
  if decide (loglevel = "debug") then Returns DEBUG
  else if decide (loglevel = "info") then Returns INFO
  else if decide (loglevel = "warn") then Returns WARN
  else if decide (loglevel = "error") then Returns ERROR
  else if decide (loglevel = "critical") then Returns CRITICAL
  else Raises ValueError.

(** The [filename] handed to [logging.basicConfig]. *)
Definition logfilename_of (args : Args) : option string :=
  if decide (logtarget args = "file") then Some (logfile args) else None.

(** One of the four blocks that build an exchange object when its key is
    in [self.secret_data]; reading the secret raises when it is not. *)
Definition init_exchange (secret_data : gmap string string)
    (class : exchange_class) (api_key_name secret_name : string)
    : outcome (option Client) :=
  match secret_data !! api_key_name with
  | None => Returns None
  | Some api_key =>
      match secret_data !! secret_name with
      | None => Raises (KeyError secret_name)
      | Some api_secret => Returns (Some (mkClient class api_key api_secret))
      end
  end.

(** The name that is appended to [self.connected_exchanges] with a new
    exchange object. *)
Definition connected_if (exchange : option Client) (name : string)
    : list string :=
  match exchange with
  | Some _ => [name]
  | None => []
  end.

(** The constructor, given the contents of the secret file ([None] when
    [os.path.isfile] is false; its values already strings). *)
Definition init (args : Args) (file : option (gmap string string))
    : outcome Rotkelchen :=
  _ ← loglevel_of (loglevel args);
  let secret_data := default ∅ file in
  kraken ← init_exchange secret_data Kraken "kraken_api_key" "kraken_secret";
  poloniex ←
    init_exchange secret_data Poloniex "poloniex_api_key" "poloniex_secret";
  bittrex ←
    init_exchange secret_data Bittrex "bittrex_api_key" "bittrex_secret";
  binance ←
    init_exchange secret_data Binance "binance_api_key" "binance_secret";
  mret {| connected_exchanges :=
            connected_if kraken "kraken" ++ connected_if poloniex "poloniex" ++
            connected_if bittrex "bittrex" ++ connected_if binance "binance";
          sleep_secs := args_sleep_secs args;
          secret_data := secret_data;
          secret_file := file;
          poloniex := poloniex;
          kraken := kraken;
          bittrex := bittrex;
          binance := binance |}.

(** *** remove_exchange (lines 316-334) *)

(** [l.remove(x)]: the list without the first [x], [None] for the
    [ValueError] of a list that does not hold [x]. *)
Fixpoint list_remove (x : string) (l : list string) : option (list string) :=
  match l with
  | [] => None
  | y :: l => if decide (x = y) then Some l else (y ::.) <$> list_remove x l
  end.

(** The instance with other credentials in memory. *)
Definition set_secret_data (self : Rotkelchen)
    (secret_data : gmap string string) : Rotkelchen :=
  {| connected_exchanges := connected_exchanges self;
     sleep_secs := sleep_secs self;
     secret_data := secret_data;
     secret_file := secret_file self;
     poloniex := poloniex self;
     kraken := kraken self;
     bittrex := bittrex self;
     binance := binance self |}.

(** The method: what it returns or raises, and the instance after the
    call. An exception leaves the deletions made before it in place. *)
Definition remove_exchange (self : Rotkelchen) (name : string)
    : outcome (bool * string) * Rotkelchen :=
  if decide (secret_data self !! api_key_of name = None) then
    (Returns (false, "Exchange {} is not registered"), self)
  else if decide (secret_file self = None) then
    (Returns (false, "The secret file can not be found"), self)
  else
    let self := set_secret_data self (delete (api_key_of name) (secret_data self)) in
    match secret_data self !! secret_of name with
    | None => (Raises (KeyError (secret_of name)), self)
    | Some _ =>
        let self :=
          set_secret_data self (delete (secret_of name) (secret_data self)) in
        match list_remove name (connected_exchanges self) with
        | None => (Raises ValueError, self)
        | Some connected =>
            (Returns (true, ""),
             {| connected_exchanges := connected;
                sleep_secs := sleep_secs self;
                secret_data := secret_data self;
                secret_file := Some (secret_data self);
                poloniex := poloniex self;
                kraken := kraken self;
                bittrex := bittrex self;
                binance := binance self |})
        end
    end.

(** What [__init__] sets up and [setup_exchange] and [remove_exchange]
    keep: no exchange is connected twice, and every connected exchange has
    its object and its two credentials. *)
Definition connected_ok (self : Rotkelchen) : Prop :=
  NoDup (connected_exchanges self) ∧
  Forall
    (λ name,
       (∃ exchange, getattr_exchange self name = Ok (Some exchange)) ∧
       is_Some (secret_data self !! api_key_of name) ∧
       is_Some (secret_data self !! secret_of name))
    (connected_exchanges self).

(** *** set_main_currency, set_settings, usd_to_main_currency
    (lines 238-255) *)

(** The attributes that the three methods read or write:
    [self.main_currency], and [self.usd_to_main_currency_rate], [None] as
    long as the attribute is not there. The calls of [self.data] are left
    to the collaborator. *)
Record Currency : Type := mkCurrency {
  main_currency : string;
  usd_to_main_currency_rate : option FVal;
}.

Definition set_main_currency (env : Collaborators) (self : Currency)
    (currency : string) : Currency :=
  {| main_currency := main_currency self;
     usd_to_main_currency_rate :=
       if decide (currency ≠ "USD") then
         Some (query_fiat_pair env "USD" currency)
       else usd_to_main_currency_rate self |}.

Definition set_settings (env : Collaborators) (self : Currency)
    (settings : gmap string string) : outcome Currency :=
  match settings !! "main_currency" with
  | None => Raises (KeyError "main_currency")
  | Some main_currency => Returns (set_main_currency env self main_currency)
  end.

Definition usd_to_main_currency (env : Collaborators) (self : Currency)
    (amount : FVal) : result FVal * Currency :=
  let self :=
    if decide (main_currency self ≠ "USD"
               ∧ usd_to_main_currency_rate self = None) then
      {| main_currency := main_currency self;
         usd_to_main_currency_rate :=
           Some (query_fiat_pair env "USD" (main_currency self)) |}
    else self in
  match usd_to_main_currency_rate self with
  | None => (Raise AttributeError, self)
  | Some rate => (Ok (rate * amount), self)
  end.

(** *** set (lines 340-353) *)

(** The method, for string arguments. [format_args] is the text of the
    tuple [args]; [poloniex_set] is the method [set] of the poloniex
    object. The class has no attribute [save_data], so that the call of it
    raises. *)
Definition set (format_args : list string → string)
    (poloniex_set : Client → list string → string)
    (self : Rotkelchen) (args : list string) : result string :=
  match args with
  | first :: ((_ :: _) as rest) =>
      if decide (first = "poloniex") then
        match poloniex self with
        | None => Raise AttributeError
        | Some exchange =>
            let resp := poloniex_set exchange rest in
            Raise AttributeError
        end
      else Ok ("ERROR: Unrecognized first argument: " +:+ first)
  | _ =>
      Ok ("ERROR: set requires at least two arguments but got: "
            +:+ format_args args)
  end.

(** *** Sample data for the other methods *)

Definition sample_args : Args :=
  {| logtarget := "file";
     logfile := "rotkelchen.log";
     loglevel := "debug";
     logfromothermodules := false;
     args_sleep_secs := 20 |}.

(** What the valuation stores for an asset: the overlay is not to change
    it. *)
Definition valued (e : Entry) : FVal * FVal * string :=
  (entry_amount e, entry_usd_value e, percentage_of_net_value e).

(** Whether the accountant says nothing about an asset: it is not ready,
    or its [details] have no item for the asset. *)
Definition unreported (env : Collaborators) (asset : string) : Prop :=
  match accountant_details env with
  | None => True
  | Some details => asset ∉ details.*1
  end.

(** The collaborators of the sample with a kraken that reports a BTC
    balance of zero. *)
Definition dust_env
    (details : option (list (string * (pyobj * pyobj)))) : Collaborators :=
  {| to_percentage := sample_to_percentage;
     client_query_balances := λ _, {[ "BTC" := mkBalance 0 0 ]};
     client_validate_api_key := λ _, (false, "Invalid API key");
     blockchain_totals := ∅;
     FIAT_CURRENCIES := ["EUR"; "USD"];
     personal_fiat := {[ "USD" := Qc_of_Z 500 ]};
     query_fiat_pair := λ _ _, 1;
     accountant_details := details |}.

(** Collaborators whose exchanges accept every key and hold nothing. *)
Definition accepting_env : Collaborators :=
  {| to_percentage := sample_to_percentage;
     client_query_balances := λ _, ∅;
     client_validate_api_key := λ _, (true, "");
     blockchain_totals := ∅;
     FIAT_CURRENCIES := [];
     personal_fiat := ∅;
     query_fiat_pair := λ _ _, 1;
     accountant_details := None |}.

(** A secret file with the credentials of kraken and of binance. *)
Definition sample_file : gmap string string :=
  {[ "kraken_api_key" := "key"; "kraken_secret" := "secret";
     "binance_api_key" := "key2"; "binance_secret" := "secret2" ]}.

(** ** Tactics *)

(** Ring equations between [FVal]s. *)
Ltac fval_ring := unfold FVal_0 in *; ring.

(** Case analysis on one pass through the body of the overlay loop. *)
Ltac overlay_asset_cases :=
  unfold overlay_asset, fval_div;
  repeat match goal with
    | |- context [match ?o with Some _ => _ | None => _ end] =>
        let E := fresh "E" in destruct o eqn:E
    | |- context [match ?o with PyFVal _ => _ | PyOther _ => _ end] =>
        destruct o
    | |- context [decide ?P] => destruct (decide P)
    end;
  simpl in *.

(** ** Lemmas on the helpers *)

Section combine.
Import utils.
Implicit Types a b c d : gmap string Balance.

Lemma add_entries_comm (x y : Balance) : add_entries x y = add_entries y x.
Proof.
  destruct x, y; unfold add_entries; simpl.
  f_equal; apply Qcplus_comm.
Qed.

Lemma add_entries_assoc (x y z : Balance) :
  add_entries x (add_entries y z) = add_entries (add_entries x y) z.
Proof.
  destruct x, y, z; unfold add_entries; simpl.
  f_equal; apply Qcplus_assoc.
Qed.

Lemma combine_dicts_lookup a b (asset : string) :
  combine_dicts a b !! asset =
    match a !! asset, b !! asset with
    | Some x, Some y => Some (add_entries x y)
    | Some x, None => Some x
    | None, o => o
    end.
Proof.
  unfold combine_dicts. rewrite lookup_union_with.
  by destruct (a !! asset), (b !! asset).
Qed.

Lemma combine_dicts_comm a b : combine_dicts a b = combine_dicts b a.
Proof.
  apply map_eq; intros i. rewrite !combine_dicts_lookup.
  destruct (a !! i), (b !! i); try done.
  by rewrite add_entries_comm.
Qed.

Lemma combine_dicts_assoc a b c :
  combine_dicts a (combine_dicts b c) = combine_dicts (combine_dicts a b) c.
Proof.
  apply map_eq; intros i. rewrite !combine_dicts_lookup.
  destruct (a !! i), (b !! i), (c !! i); try done.
  by rewrite add_entries_assoc.
Qed.

Lemma combine_dicts_empty_l a : combine_dicts ∅ a = a.
Proof.
  apply map_eq; intros i. rewrite combine_dicts_lookup, lookup_empty.
  by destruct (a !! i).
Qed.

Lemma combine_dicts_empty_r a : combine_dicts a ∅ = a.
Proof. by rewrite combine_dicts_comm, combine_dicts_empty_l. Qed.

(** The accumulator of the fold can be taken out. *)
Lemma foldl_combine_dicts acc (l : list (gmap string Balance)) :
  foldl combine_dicts acc l = combine_dicts acc (foldl combine_dicts ∅ l).
Proof.
  revert acc. induction l as [|d l IH]; intros acc; simpl.
  - by rewrite combine_dicts_empty_r.
  - rewrite IH, (IH (combine_dicts ∅ d)).
    by rewrite combine_dicts_empty_l, combine_dicts_assoc.
Qed.

Lemma combine_stat_dicts_nil : combine_stat_dicts [] = ∅.
Proof. done. Qed.

Lemma combine_stat_dicts_cons d (l : list (gmap string Balance)) :
  combine_stat_dicts (d :: l) = combine_dicts d (combine_stat_dicts l).
Proof.
  unfold combine_stat_dicts; simpl.
  by rewrite foldl_combine_dicts, combine_dicts_empty_l.
Qed.

(** An asset that no source holds is not in the result; an asset that some
    source holds gets the sum over the sources that hold it. *)
(** The entry of an asset is the sum of its balances over the sources that
    hold it. *)
Lemma combine_stat_dicts_lookup (l : list (gmap string Balance)) asset :
  combine_stat_dicts l !! asset =
    foldr (λ d total,
             match d !! asset, total with
             | Some x, Some y => Some (add_entries x y)
             | Some x, None => Some x
             | None, total => total
             end)
      None l.
Proof.
  induction l as [|d l IH]; simpl.
  - by rewrite combine_stat_dicts_nil, lookup_empty.
  - by rewrite combine_stat_dicts_cons, combine_dicts_lookup, IH.
Qed.

Lemma combine_stat_dicts_lookup_None (l : list (gmap string Balance)) asset :
  combine_stat_dicts l !! asset = None ↔ Forall (λ d, d !! asset = None) l.
Proof.
  induction l as [|d l IH].
  - rewrite combine_stat_dicts_nil, lookup_empty. split; [constructor|done].
  - rewrite combine_stat_dicts_cons, combine_dicts_lookup, Forall_cons.
    destruct (d !! asset) as [x|] eqn:Hd.
    + destruct (combine_stat_dicts l !! asset); split; try done;
        by intros [? _].
    + rewrite IH. split; [done | by intros [_ ?]].
Qed.

End combine.

(** ** Sums over dictionaries *)

Section sum_over.
Context {A : Type} (field : A → FVal).
Implicit Types m : gmap string A.

Lemma sum_over_empty : sum_over field (∅ : gmap string A) = FVal_0.
Proof. unfold sum_over. by rewrite map_fold_empty. Qed.

Lemma sum_over_insert m (i : string) (x : A) :
  m !! i = None →
  sum_over field (<[i:=x]> m) = sum_over field m + field x.
Proof.
  intros Hi. unfold sum_over.
  rewrite map_fold_insert_L; [done| |done].
  intros j1 j2 z1 z2 y _ _ _. fval_ring.
Qed.

Lemma sum_over_lookup m (i : string) (x : A) :
  m !! i = Some x →
  sum_over field m = sum_over field (delete i m) + field x.
Proof.
  intros Hi. rewrite <-(insert_delete_id m i x) at 1 by done.
  apply sum_over_insert, lookup_delete_eq.
Qed.

(** Storing a value with the same field over an existing key keeps the
    sum. *)
Lemma sum_over_replace m (i : string) (x y : A) :
  m !! i = Some x → field y = field x →
  sum_over field (<[i:=y]> m) = sum_over field m.
Proof.
  intros Hi Hy. rewrite (sum_over_lookup m i x Hi).
  rewrite <-insert_delete_eq.
  rewrite sum_over_insert by apply lookup_delete_eq.
  by rewrite Hy.
Qed.

Lemma sum_over_fmap {B : Type} (g : B → A) (m : gmap string B) :
  sum_over field (g <$> m) = sum_over (field ∘ g) m.
Proof. unfold sum_over. by rewrite map_fold_fmap. Qed.

Lemma sum_over_map_to_list m :
  sum_over field m = foldr (λ v sum, sum + field v) FVal_0 (map_to_list m).*2.
Proof.
  unfold sum_over. rewrite map_fold_foldr.
  induction (map_to_list m) as [|[k v] l IH]; simpl; [done|].
  by rewrite IH.
Qed.

End sum_over.

Section combine_sums.
Import utils.

Lemma sum_usd_value_eq (d : gmap string Balance) :
  sum_usd_value d = sum_over usd_value d.
Proof. done. Qed.

Lemma sum_over_combine_dicts (a b : gmap string Balance) :
  sum_over usd_value (combine_dicts a b) =
    sum_over usd_value a + sum_over usd_value b.
Proof.
  revert b. induction a as [|i x a Hi IH] using map_ind; intros b.
  - rewrite combine_dicts_empty_l, sum_over_empty. fval_ring.
  - rewrite (sum_over_insert _ a) by done.
    destruct (b !! i) as [y|] eqn:Hb.
    + rewrite <-(insert_delete_id b i y) at 1 by done.
      unfold combine_dicts.
      rewrite <-(insert_union_with _ _ _ _ _ _ (add_entries x y)) by done.
      rewrite sum_over_insert.
      * fold (combine_dicts a (delete i b)).
        rewrite IH, (sum_over_lookup _ b i y Hb). simpl. fval_ring.
      * rewrite lookup_union_with, Hi, lookup_delete_eq. done.
    + unfold combine_dicts.
      rewrite <-insert_union_with_l by done.
      rewrite sum_over_insert.
      * fold (combine_dicts a b). rewrite IH. fval_ring.
      * rewrite lookup_union_with, Hi, Hb. done.
Qed.

Lemma sum_over_combine_stat_dicts (l : list (gmap string Balance)) :
  sum_over usd_value (combine_stat_dicts l) =
    foldr (λ d sum, sum + sum_over usd_value d) FVal_0 l.
Proof.
  induction l as [|d l IH]; simpl.
  - by rewrite combine_stat_dicts_nil, sum_over_empty.
  - rewrite combine_stat_dicts_cons, sum_over_combine_dicts, IH. fval_ring.
Qed.

(** The net value is the sum of the totals of the sources. *)
Lemma sum_over_sources (balances : gmap string (gmap string Balance)) :
  sum_over usd_value (combine_stat_dicts (map_to_list balances).*2) =
    sum_over (λ d, dict_get_sumof d usd_value) balances.
Proof.
  by rewrite sum_over_combine_stat_dicts, sum_over_map_to_list.
Qed.

End combine_sums.

(** ** The loops of the valuation *)

Section for_items.
Context {A B : Type}.
Implicit Types (f : A → result B) (g : A → B) (d : gmap string B).

(** When no step raises, the loop stores the computed value of every
    item. *)
Lemma for_items_Ok f g (items : list (string * A)) d :
  (∀ v, f v = Ok (g v)) →
  NoDup items.*1 →
  for_items f items d = Ok ((g <$> list_to_map items) ∪ d).
Proof.
  intros Hf. revert d.
  induction items as [|[k v] items IH]; intros d Hnd; simpl.
  - by rewrite fmap_empty, (left_id_L ∅ (∪)).
  - rewrite fmap_cons in Hnd. apply NoDup_cons in Hnd as [Hk Hnd].
    rewrite Hf; simpl. rewrite IH by done. f_equal.
    rewrite fmap_insert, <-insert_union_l.
    symmetry. apply insert_union_r.
    rewrite lookup_fmap, (not_elem_of_list_to_map_1 _ k Hk). done.
Qed.

Lemma for_items_map_to_list_Ok f g (m : gmap string A) :
  (∀ v, f v = Ok (g v)) →
  for_items f (map_to_list m) ∅ = Ok (g <$> m).
Proof.
  intros Hf.
  rewrite (for_items_Ok f g) by (done || apply NoDup_fst_map_to_list).
  by rewrite list_to_map_to_list, (right_id_L ∅ (∪)).
Qed.

(** When every step raises, a loop over at least one item raises. *)
Lemma for_items_Raise f (e : exn) (items : list (string * A)) d :
  (∀ v, f v = Raise e) →
  items ≠ [] →
  for_items f items d = Raise e.
Proof.
  intros Hf Hne. destruct items as [|[k v] items]; [done|].
  simpl. by rewrite Hf.
Qed.

End for_items.

Section valuation.
Context (env : Collaborators).
Implicit Types balances : gmap string (gmap string Balance).

Lemma fval_div_Ok (a b : FVal) : b ≠ FVal_0 → fval_div a b = Ok (a / b).
Proof. intros Hb. unfold fval_div. by rewrite decide_False. Qed.

Lemma fval_div_zero (a : FVal) : fval_div a FVal_0 = Raise DecimalException.
Proof. unfold fval_div. by rewrite decide_True. Qed.

Lemma total_usd_per_location_items balances :
  (λ kv : string * gmap string Balance,
     (kv.1, utils.dict_get_sumof kv.2 usd_value)) <$> map_to_list balances =
  map_to_list ((λ d, utils.dict_get_sumof d usd_value) <$> balances).
Proof.
  rewrite map_to_list_fmap.
  apply list_fmap_ext. by intros _ [k d] _.
Qed.

(** A net value other than zero: the valuation returns, and each part of
    its result is known. *)
Lemma valuation_Ok balances :
  let combined := utils.combine_stat_dicts (map_to_list balances).*2 in
  let net_usd := sum_usd_value combined in
  net_usd ≠ FVal_0 →
  valuation env balances =
    Ok {| combined := entry_at env net_usd <$> combined;
          location :=
            location_at env net_usd <$>
              ((λ d, utils.dict_get_sumof d usd_value) <$> balances);
          net_usd := net_usd |}.
Proof.
  intros combined net_usd Hnet. unfold valuation.
  fold combined. fold net_usd. rewrite total_usd_per_location_items.
  rewrite (for_items_map_to_list_Ok _ (location_at env net_usd)); simpl.
  - by rewrite (for_items_map_to_list_Ok _ (entry_at env net_usd));
      [|intros v; unfold entry_of; rewrite fval_div_Ok].
  - intros v. unfold location_of. by rewrite fval_div_Ok.
Qed.

(** A net value of zero: the first division of the loop over the
    locations raises. *)
Lemma valuation_zero balances :
  sum_usd_value (utils.combine_stat_dicts (map_to_list balances).*2)
    = FVal_0 →
  balances ≠ ∅ →
  valuation env balances = Raise DecimalException.
Proof.
  intros Hnet Hne. unfold valuation. rewrite Hnet.
  rewrite (for_items_Raise (location_of env FVal_0) DecimalException); [reflexivity| |].
  - intros v. unfold location_of. by rewrite fval_div_zero.
  - intros Hnil. apply fmap_nil_inv, map_to_list_empty_iff in Hnil. done.
Qed.

(** Without any source there is nothing to divide. *)
Lemma valuation_empty :
  valuation env ∅ =
    Ok {| combined := ∅; location := ∅; net_usd := FVal_0 |}.
Proof.
  unfold valuation. rewrite map_to_list_empty. simpl.
  change (utils.combine_stat_dicts []) with (∅ : gmap string Balance).
  rewrite map_to_list_empty. simpl.
  by rewrite sum_usd_value_eq, sum_over_empty.
Qed.

(** The valuation returns exactly when it does not divide by zero. *)
Lemma valuation_Ok_inv balances (result_dict : Snapshot) :
  valuation env balances = Ok result_dict →
  balances ≠ ∅ →
  sum_usd_value (utils.combine_stat_dicts (map_to_list balances).*2)
    ≠ FVal_0.
Proof.
  intros Hval Hne Hnet. by rewrite valuation_zero in Hval.
Qed.

End valuation.

(** ** The tax overlay *)

Section overlay.
Implicit Types (result_dict r : Snapshot) (item : string * (pyobj * pyobj)).
Implicit Types details : list (string * (pyobj * pyobj)).

Lemma overlay_asset_net_usd r item :
  net_usd (overlay_asset r item).1 = net_usd r.
Proof. destruct item as [asset [tax_free average_buy]]. by overlay_asset_cases. Qed.

Lemma overlay_asset_location r item :
  location (overlay_asset r item).1 = location r.
Proof. destruct item as [asset [tax_free average_buy]]. by overlay_asset_cases. Qed.

(** An asset other than the one of the item is left alone. *)
Lemma overlay_asset_other r item (asset : string) :
  asset ≠ item.1 →
  combined (overlay_asset r item).1 !! asset = combined r !! asset.
Proof.
  destruct item as [a [tax_free average_buy]]; simpl. intros Hne.
  overlay_asset_cases;
    by rewrite ?insert_insert_eq, ?lookup_insert_ne.
Qed.

(** The balance of every asset stays as it is, whatever else is stored. *)
Lemma overlay_asset_balance r item (asset : string) (e : Entry) :
  combined r !! asset = Some e →
  ∃ e', combined (overlay_asset r item).1 !! asset = Some e' ∧
        entry_amount e' = entry_amount e ∧
        entry_usd_value e' = entry_usd_value e.
Proof.
  intros He. destruct (decide (asset = item.1)) as [->|Hne].
  - destruct item as [a [tax_free average_buy]]; simpl in *.
    overlay_asset_cases; simplify_eq;
      rewrite ?insert_insert_eq, ?lookup_insert_eq; eauto.
  - rewrite overlay_asset_other by done. eauto.
Qed.

Lemma overlay_asset_sum r item :
  sum_over entry_usd_value (combined (overlay_asset r item).1) =
    sum_over entry_usd_value (combined r).
Proof.
  destruct item as [a [tax_free average_buy]].
  overlay_asset_cases; rewrite ?insert_insert_eq; try done;
    by erewrite sum_over_replace.
Qed.

(** A pass that ends without an exception has stored the three fields. *)
Lemma overlay_asset_annotated r r' (asset : string) (e : Entry)
    (tax_free average_buy : pyobj) :
  overlay_asset r (asset, (tax_free, average_buy)) = (r', None) →
  combined r !! asset = Some e →
  ∃ (e' : Entry) (b : FVal),
    combined r' !! asset = Some e' ∧
    average_buy = PyFVal b ∧
    entry_amount e ≠ FVal_0 ∧
    entry_amount e' = entry_amount e ∧
    entry_usd_value e' = entry_usd_value e ∧
    tax_free_amount e' = Some tax_free ∧
    average_buy_value e' = Some average_buy ∧
    percent_change e' = Some (percent_change_of e b).
Proof.
  intros Hstep He. revert Hstep. unfold percent_change_of.
  overlay_asset_cases; intros Hstep; simplify_eq; simpl.
  - eexists _, _. rewrite insert_insert_eq, lookup_insert_eq.
    by rewrite decide_False.
  - eexists _, _. rewrite insert_insert_eq, lookup_insert_eq.
    by rewrite decide_True by (by apply dec_stable).
Qed.

Lemma overlay_net_usd details r : net_usd (overlay details r).1 = net_usd r.
Proof.
  revert r. induction details as [|item details IH]; intros r; simpl; [done|].
  pose proof (overlay_asset_net_usd r item) as H.
  destruct (overlay_asset r item) as [r1 [exc|]]; simpl in *; [done|].
  by rewrite IH.
Qed.

Lemma overlay_location details r :
  location (overlay details r).1 = location r.
Proof.
  revert r. induction details as [|item details IH]; intros r; simpl; [done|].
  pose proof (overlay_asset_location r item) as H.
  destruct (overlay_asset r item) as [r1 [exc|]]; simpl in *; [done|].
  by rewrite IH.
Qed.

Lemma overlay_sum details r :
  sum_over entry_usd_value (combined (overlay details r).1) =
    sum_over entry_usd_value (combined r).
Proof.
  revert r. induction details as [|item details IH]; intros r; simpl; [done|].
  pose proof (overlay_asset_sum r item) as H.
  destruct (overlay_asset r item) as [r1 [exc|]]; simpl in *; [done|].
  by rewrite IH.
Qed.

Lemma overlay_other details r (asset : string) :
  asset ∉ details.*1 →
  combined (overlay details r).1 !! asset = combined r !! asset.
Proof.
  revert r. induction details as [|item details IH]; intros r; simpl; [done|].
  rewrite not_elem_of_cons. intros [Hne Hnin].
  pose proof (overlay_asset_other r item asset Hne) as H.
  destruct (overlay_asset r item) as [r1 [exc|]]; simpl in *; [done|].
  by rewrite IH.
Qed.

(** The loop over a list of items that is cut in two. *)
Lemma overlay_app details1 details2 r :
  overlay (details1 ++ details2) r =
    match overlay details1 r with
    | (r1, None) => overlay details2 r1
    | (r1, Some exc) => (r1, Some exc)
    end.
Proof.
  revert r. induction details1 as [|item details1 IH]; intros r; simpl.
  - done.
  - destruct (overlay_asset r item) as [r1 [exc|]]; [done|]. apply IH.
Qed.

(** A loop that runs to its end has annotated every asset of the result
    that the accountant reports. *)
Lemma overlay_annotated details r r' (asset : string) (e : Entry)
    (tax_free average_buy : pyobj) :
  NoDup details.*1 →
  overlay details r = (r', None) →
  (asset, (tax_free, average_buy)) ∈ details →
  combined r !! asset = Some e →
  ∃ (e' : Entry) (b : FVal),
    combined r' !! asset = Some e' ∧
    average_buy = PyFVal b ∧
    entry_amount e ≠ FVal_0 ∧
    entry_amount e' = entry_amount e ∧
    entry_usd_value e' = entry_usd_value e ∧
    tax_free_amount e' = Some tax_free ∧
    average_buy_value e' = Some average_buy ∧
    percent_change e' = Some (percent_change_of e b).
Proof.
  revert r. induction details as [|item details IH]; intros r Hnd Hrun Hin He.
  - by apply elem_of_nil in Hin.
  - rewrite fmap_cons in Hnd. apply NoDup_cons in Hnd as [Hfresh Hnd].
    simpl in Hrun.
    destruct (overlay_asset r item) as [r1 [exc|]] eqn:Hstep; [done|].
    apply elem_of_cons in Hin as [<-|Hin].
    + destruct (overlay_asset_annotated _ _ _ _ _ _ Hstep He)
        as (e' & b & He' & Hrest).
      exists e', b. split; [|done].
      pose proof (overlay_other details r1 asset Hfresh) as Hother.
      rewrite Hrun in Hother. simpl in Hother. by rewrite Hother.
    + assert (asset ≠ item.1) as Hne.
      { intros ->. apply Hfresh.
        by apply (list_elem_of_fmap_2 fst) in Hin. }
      pose proof (overlay_asset_other r item asset Hne) as Hother.
      rewrite Hstep in Hother. simpl in Hother.
      apply (IH r1); try done. by rewrite Hother.
Qed.

End overlay.

(** ** query_balances *)

Section query_balances.
Context (env : Collaborators).
Implicit Types (self : Rotkelchen) (result_dict snapshot : Snapshot).
Implicit Types balances : gmap string (gmap string Balance).

(** The two sums that the valuation leaves in its result. *)
Lemma valuation_sums balances result_dict :
  valuation env balances = Ok result_dict →
  net_usd result_dict = sum_over entry_usd_value (combined result_dict) ∧
  sum_over loc_usd_value (location result_dict) = net_usd result_dict.
Proof.
  intros Hval. destruct (decide (balances = ∅)) as [->|Hne].
  - rewrite valuation_empty in Hval. injection Hval as <-. simpl.
    by rewrite !sum_over_empty.
  - pose proof (valuation_Ok_inv env _ _ Hval Hne) as Hnet.
    rewrite (valuation_Ok env balances Hnet) in Hval.
    injection Hval as <-. simpl. split.
    + by rewrite sum_over_fmap.
    + rewrite !sum_over_fmap, sum_usd_value_eq, sum_over_sources. done.
Qed.

Lemma valuation_location_dom balances result_dict (name : string) :
  valuation env balances = Ok result_dict →
  is_Some (balances !! name) →
  is_Some (location result_dict !! name).
Proof.
  intros Hval Hname.
  assert (balances ≠ ∅) as Hne.
  { intros ->. rewrite lookup_empty in Hname. by destruct Hname. }
  pose proof (valuation_Ok_inv env _ _ Hval Hne) as Hnet.
  rewrite (valuation_Ok env balances Hnet) in Hval.
  injection Hval as <-. simpl.
  by rewrite !lookup_fmap, !fmap_is_Some.
Qed.

(** The block around the overlay returns what the valuation built, up to
    the fields that the overlay stores. *)
Lemma overlay_body_keeps result_dict :
  let r := (overlay_body env result_dict).1 in
  net_usd r = net_usd result_dict ∧
  location r = location result_dict ∧
  sum_over entry_usd_value (combined r) =
    sum_over entry_usd_value (combined result_dict).
Proof.
  unfold overlay_body. destruct (accountant_details env) as [details|].
  - simpl. by rewrite overlay_net_usd, overlay_location, overlay_sum.
  - done.
Qed.

Lemma try_overlay_Ok result_dict snapshot :
  try_overlay env result_dict = Ok snapshot →
  net_usd snapshot = net_usd result_dict ∧
  location snapshot = location result_dict ∧
  sum_over entry_usd_value (combined snapshot) =
    sum_over entry_usd_value (combined result_dict).
Proof.
  unfold try_overlay. pose proof (overlay_body_keeps result_dict) as Hkeep.
  destruct (overlay_body env result_dict) as [r [[]|]];
    intros; by simplify_eq.
Qed.

(** With the accountant not ready the valuation is returned as it is. *)
Lemma try_overlay_not_ready result_dict :
  accountant_details env = None →
  try_overlay env result_dict = Ok result_dict.
Proof. intros Hnone. unfold try_overlay, overlay_body. by rewrite Hnone. Qed.

(** The call returns when the sources answer, the net value is not zero
    and the accountant is not ready. *)
Lemma query_balances_returns self save_data balances :
  query_sources env self = Ok balances →
  sum_usd_value (utils.combine_stat_dicts (map_to_list balances).*2)
    ≠ FVal_0 →
  accountant_details env = None →
  ∃ snapshot, query_balances env self save_data = Ok snapshot.
Proof.
  intros Hb Hnet Hnone. unfold query_balances. rewrite Hb; simpl.
  rewrite (valuation_Ok env balances Hnet); simpl.
  rewrite try_overlay_not_ready by done. eauto.
Qed.

Lemma query_balances_Ok self save_data snapshot :
  query_balances env self save_data = Ok snapshot →
  ∃ balances result_dict,
    query_sources env self = Ok balances ∧
    valuation env balances = Ok result_dict ∧
    try_overlay env result_dict = Ok snapshot.
Proof.
  unfold query_balances. intros Hq.
  destruct (query_sources env self) as [balances|] eqn:Hb; [|done].
  simpl in Hq.
  destruct (valuation env balances) as [result_dict|] eqn:Hv; [|done].
  eauto.
Qed.

(** [balances] always has the two sources that are not exchanges. *)
Lemma query_sources_Ok self balances :
  query_sources env self = Ok balances →
  is_Some (balances !! "blockchain") ∧ is_Some (balances !! "banks").
Proof.
  unfold query_sources.
  destruct (query_exchanges env self (connected_exchanges self) ∅)
    as [b|]; [|done].
  simpl. intros [= <-]. split.
  - rewrite lookup_insert_ne by done. rewrite lookup_insert_eq. eauto.
  - rewrite lookup_insert_eq. eauto.
Qed.

(** A net value of zero makes the call raise. *)
Lemma query_balances_zero_net self save_data balances :
  query_sources env self = Ok balances →
  sum_usd_value (utils.combine_stat_dicts (map_to_list balances).*2)
    = FVal_0 →
  query_balances env self save_data = Raise DecimalException.
Proof.
  intros Hb Hnet. unfold query_balances. rewrite Hb. simpl.
  rewrite valuation_zero; [done|done|].
  intros ->. apply query_sources_Ok in Hb as [[? Hb] _].
  by rewrite lookup_empty in Hb.
Qed.

End query_balances.

Lemma query_fiat_balances_empty (env : Collaborators) :
  personal_fiat env = ∅ → query_fiat_balances env = ∅.
Proof.
  intros Hfiat. unfold query_fiat_balances.
  induction (FIAT_CURRENCIES env) as [|c l IH] using rev_ind; [done|].
  by rewrite foldl_app, IH; simpl; rewrite Hfiat, lookup_empty.
Qed.

(** ** Sources without assets *)

Lemma sum_over_zero {A : Type} (field : A → FVal) (m : gmap string A) :
  map_Forall (λ _ v, field v = FVal_0) m → sum_over field m = FVal_0.
Proof.
  induction m as [|i x m Hi IH] using map_ind; intros Hall.
  - apply sum_over_empty.
  - apply map_Forall_insert in Hall as [Hx Hall]; [|done].
    rewrite sum_over_insert, Hx, IH by done. fval_ring.
Qed.

Lemma query_exchanges_no_assets (env : Collaborators) (self : Rotkelchen)
    (exchanges : list string)
    (balances balances' : gmap string (gmap string Balance)) :
  (∀ c, client_query_balances env c = ∅) →
  map_Forall (λ _ d, d = ∅) balances →
  query_exchanges env self exchanges balances = Ok balances' →
  map_Forall (λ _ d, d = ∅) balances'.
Proof.
  intros Hempty. revert balances.
  induction exchanges as [|exchange rest IH]; intros balances Hall; simpl.
  - by intros [= <-].
  - unfold exchange_query_balances.
    destruct (getattr_exchange self exchange) as [[c|]|]; simpl; try done.
    rewrite Hempty. apply IH. by apply map_Forall_insert_2.
Qed.

(** When no source reports an asset, [query_balances] returns nothing. *)
Lemma query_balances_no_assets (env : Collaborators) (self : Rotkelchen)
    (save_data : bool) (snapshot : Snapshot) :
  (∀ c, client_query_balances env c = ∅) →
  blockchain_totals env = ∅ →
  personal_fiat env = ∅ →
  query_balances env self save_data ≠ Ok snapshot.
Proof.
  intros Hclients Hchain Hfiat Hq.
  destruct (query_sources env self) as [balances|] eqn:Hb.
  - rewrite (query_balances_zero_net env self save_data balances) in Hq;
      [done|done|].
    rewrite sum_usd_value_eq, sum_over_sources. apply sum_over_zero.
    unfold query_sources in Hb.
    destruct (query_exchanges env self (connected_exchanges self) ∅)
      as [b|] eqn:Hex; [|done].
    simpl in Hb. injection Hb as <-.
    rewrite Hchain, query_fiat_balances_empty by done.
    apply (query_exchanges_no_assets env self _ ∅ b Hclients) in Hex;
      [|apply map_Forall_empty].
    apply map_Forall_insert_2; [apply sum_over_empty|].
    apply map_Forall_insert_2; [apply sum_over_empty|].
    intros k d Hd. rewrite (Hex k d Hd). apply sum_over_empty.
  - unfold query_balances in Hq. by rewrite Hb in Hq.
Qed.

(** ** setup_exchange and main_loop *)

(** A call that does not succeed changes nothing. *)
Lemma setup_exchange_failure (env : Collaborators) (self self' : Rotkelchen)
    (name api_key api_secret message : string) :
  setup_exchange env self name api_key api_secret = ((false, message), self') →
  self' = self.
Proof.
  unfold setup_exchange. repeat case_decide; try by intros [= _ <-].
  destruct (exchange_class_of name) as [class|]; [|by intros [= _ <-]].
  destruct (client_validate_api_key env _) as [[] msg]; simpl;
    by intros [= <-].
Qed.

Lemma exchange_class_of_None (name : string) :
  name ∉ ["kraken"; "poloniex"; "bittrex"; "binance"] →
  exchange_class_of name = None.
Proof.
  rewrite !not_elem_of_cons. intros (? & ? & ? & ? & _).
  unfold exchange_class_of. by rewrite !decide_False.
Qed.

Lemma exchange_class_of_Some (name : string) (class : exchange_class) :
  exchange_class_of name = Some class →
  name ∈ ["kraken"; "poloniex"; "bittrex"; "binance"].
Proof.
  unfold exchange_class_of. rewrite !elem_of_cons.
  repeat case_decide; subst; try done; intros _; auto.
Qed.

(** Every pass of the main loop ends with the same wait, and calls no
    hook but those of poloniex and kraken. *)
Lemma main_loop_body_last (self : Rotkelchen) :
  last (main_loop_body self) = Some (Sleep 10).
Proof. unfold main_loop_body. by rewrite app_assoc, last_snoc. Qed.

Lemma main_loop_body_hooks (self : Rotkelchen) (c : Client) :
  MainLogic c ∈ main_loop_body self →
  poloniex self = Some c ∨ kraken self = Some c.
Proof.
  unfold main_loop_body. rewrite !elem_of_app. intros [H|[H|H]].
  - left. destruct (poloniex self); [|by apply elem_of_nil in H].
    apply list_elem_of_singleton in H. congruence.
  - right. destruct (kraken self); [|by apply elem_of_nil in H].
    apply list_elem_of_singleton in H. congruence.
  - by apply list_elem_of_singleton in H.
Qed.

(** ** The properties of the specification *)

(** C1: the [net_usd] of the snapshot that [query_balances] returns is the
    sum of [usd_value] over the combined assets of that snapshot. *)
Theorem query_balances_net_usd_combined (env : Collaborators)
    (self : Rotkelchen) (save_data : bool) (snapshot : Snapshot) :
  query_balances env self save_data = Ok snapshot →
  net_usd snapshot = sum_over entry_usd_value (combined snapshot).
Proof.
  intros Hq.
  apply query_balances_Ok in Hq as (balances & result_dict & _ & Hval & Hov).
  apply valuation_sums in Hval as [Hnet _].
  apply try_overlay_Ok in Hov as (-> & _ & ->). done.
Qed.

Lemma query_balances_net_usd_combined_witness :
  ∃ snapshot,
    query_balances (sample_env None) sample_self false = Ok snapshot ∧
    net_usd snapshot = sum_over entry_usd_value (combined snapshot).
Proof.
  assert (∃ s, query_balances (sample_env None) sample_self false = Ok s)
    as [s Hs] by (vm_compute; eauto).
  exists s. split; [done|].
  exact (query_balances_net_usd_combined _ _ _ _ Hs).
Defined.

(** C2: the [usd_value]s of the location breakdown of the snapshot that
    [query_balances] returns, one per source, add up to its [net_usd]. *)
Theorem query_balances_net_usd_location (env : Collaborators)
    (self : Rotkelchen) (save_data : bool) (snapshot : Snapshot) :
  query_balances env self save_data = Ok snapshot →
  sum_over loc_usd_value (location snapshot) = net_usd snapshot.
Proof.
  intros Hq.
  apply query_balances_Ok in Hq as (balances & result_dict & _ & Hval & Hov).
  apply valuation_sums in Hval as [_ Hloc].
  apply try_overlay_Ok in Hov as (-> & -> & _). done.
Qed.

Lemma query_balances_net_usd_location_witness :
  ∃ snapshot,
    query_balances (sample_env None) sample_self true = Ok snapshot ∧
    sum_over loc_usd_value (location snapshot) = net_usd snapshot.
Proof.
  assert (∃ s, query_balances (sample_env None) sample_self true = Ok s)
    as [s Hs] by (vm_compute; eauto).
  exists s. split; [done|].
  exact (query_balances_net_usd_location _ _ _ _ Hs).
Defined.

(** C3: the combined totals that [combine_stat_dicts] produces are the same
    for every permutation of the list of sources. *)
Theorem combine_stat_dicts_order_independent
    (sources permuted : list (gmap string Balance)) :
  sources ≡ₚ permuted →
  utils.combine_stat_dicts sources = utils.combine_stat_dicts permuted.
Proof.
  induction 1 as [|d l1 l2 Hp IH|d1 d2 l|l1 l2 l3 Hp1 IH1 Hp2 IH2].
  - done.
  - by rewrite !combine_stat_dicts_cons, IH.
  - rewrite !combine_stat_dicts_cons, !combine_dicts_assoc.
    by rewrite (combine_dicts_comm d1 d2).
  - by rewrite IH1.
Qed.

Lemma combine_stat_dicts_order_independent_witness :
  let kraken : gmap string Balance :=
    {[ "BTC" := mkBalance 1 (Qc_of_Z 10000) ]} in
  let banks : gmap string Balance :=
    {[ "USD" := mkBalance (Qc_of_Z 500) (Qc_of_Z 500) ]} in
  [kraken; banks] ≡ₚ [banks; kraken] ∧
  utils.combine_stat_dicts [kraken; banks] =
    utils.combine_stat_dicts [banks; kraken].
Proof.
  intros kraken banks.
  assert ([kraken; banks] ≡ₚ [banks; kraken]) as Hperm by apply perm_swap.
  split; [done|].
  exact (combine_stat_dicts_order_independent _ _ Hperm).
Defined.

(** C9: whatever exchanges are connected, the location breakdown of the
    snapshot that [query_balances] returns has an entry for ["blockchain"]
    and an entry for ["banks"]. *)
Theorem query_balances_location_blockchain_banks (env : Collaborators)
    (self : Rotkelchen) (save_data : bool) (snapshot : Snapshot) :
  query_balances env self save_data = Ok snapshot →
  is_Some (location snapshot !! "blockchain") ∧
  is_Some (location snapshot !! "banks").
Proof.
  intros Hq.
  apply query_balances_Ok in Hq as (balances & result_dict & Hb & Hval & Hov).
  apply query_sources_Ok in Hb as [Hchain Hbanks].
  apply try_overlay_Ok in Hov as (_ & -> & _).
  split; by eapply valuation_location_dom.
Qed.

Lemma query_balances_location_blockchain_banks_witness :
  ∃ snapshot,
    query_balances (sample_env None) sample_self false = Ok snapshot ∧
    is_Some (location snapshot !! "blockchain") ∧
    is_Some (location snapshot !! "banks").
Proof.
  assert (∃ s, query_balances (sample_env None) sample_self false = Ok s)
    as [s Hs] by (vm_compute; eauto).
  exists s. split; [done|].
  exact (query_balances_location_blockchain_banks _ _ _ _ Hs).
Defined.

(** C4: when the candidate client's [validate_api_key] reports failure,
    [setup_exchange] returns [(False, message)] and the instance (secret
    data, secret file, connected exchanges, client handles) is as it was
    before the call; once the two earlier checks are passed, the message is
    the one of the validation. *)
Theorem setup_exchange_validation_failure (env : Collaborators)
    (self : Rotkelchen) (name api_key api_secret : string)
    (class : exchange_class) (message : string) :
  exchange_class_of name = Some class →
  client_validate_api_key env (mkClient class api_key api_secret)
    = (false, message) →
  ∃ reported,
    setup_exchange env self name api_key api_secret
      = ((false, reported), self) ∧
    (secret_data self !! api_key_of name = None →
     secret_file self ≠ None →
     reported = message).
Proof.
  intros Hclass Hvalid. unfold setup_exchange.
  rewrite Hclass, Hvalid. simpl.
  repeat case_decide; eexists; (split; [done|]); intros Hkey Hfile; try done.
  rewrite Hkey in *. by destruct select (is_Some None).
Qed.

Lemma setup_exchange_validation_failure_witness :
  setup_exchange (sample_env None) sample_self "bittrex" "k" "s"
    = ((false, "Invalid API key"), sample_self).
Proof.
  destruct (setup_exchange_validation_failure (sample_env None) sample_self
              "bittrex" "k" "s" Bittrex "Invalid API key"
              eq_refl eq_refl) as (reported & -> & Hmsg).
  by rewrite Hmsg.
Defined.

(** C5 as the code has it: for a name outside kraken, poloniex, bittrex
    and binance, [setup_exchange] returns [(False, message)] and leaves the
    instance, its list of connected exchanges included, as it was; the
    message is the one about the unsupported exchange when no key is stored
    under the name and the secret file exists. *)
Theorem setup_exchange_unsupported (env : Collaborators) (self : Rotkelchen)
    (name api_key api_secret : string) :
  name ∉ ["kraken"; "poloniex"; "bittrex"; "binance"] →
  ∃ message,
    setup_exchange env self name api_key api_secret
      = ((false, message), self) ∧
    (secret_data self !! api_key_of name = None →
     secret_file self ≠ None →
     message = "Attempted to register unsupported exchange " +:+ name).
Proof.
  intros Hname. unfold setup_exchange.
  rewrite (exchange_class_of_None name Hname).
  repeat case_decide; eexists; (split; [done|]); intros Hkey Hfile; try done.
  rewrite Hkey in *. by destruct select (is_Some None).
Qed.

Lemma setup_exchange_unsupported_witness :
  setup_exchange (sample_env None) sample_self "unknown" "k" "s"
    = ((false, "Attempted to register unsupported exchange unknown"),
       sample_self).
Proof.
  destruct (setup_exchange_unsupported (sample_env None) sample_self
              "unknown" "k" "s") as (message & -> & Hmsg).
  - apply (bool_decide_unpack _). by vm_compute.
  - rewrite Hmsg; [done|done|done].
Defined.

(** C5 as the spec has it fails: without a secret file, the call with an
    unknown name reports the missing file, not the unsupported exchange. *)
Lemma setup_exchange_unsupported_counterexample :
  ("unknown" ∉ ["kraken"; "poloniex"; "bittrex"; "binance"]) ∧
  fst (setup_exchange empty_env fresh_self "unknown" "k" "s")
    = (false, "The secret file can not be found") ∧
  fst (setup_exchange empty_env fresh_self "unknown" "k" "s")
    ≠ (false, "Attempted to register unsupported exchange unknown").
Proof.
  split; [apply (bool_decide_unpack _); by vm_compute|].
  split; [by vm_compute|]. vm_compute. discriminate.
Qed.

(** C6 as the code has it: when the overlay loop runs to its end, every
    asset that is both in the snapshot and in the accountant's [details]
    carries [tax_free_amount], [average_buy_value] and a [percent_change]
    that is the string ['INF'] when [average_buy_value] is zero and
    [((usd_value / amount - average_buy_value) / average_buy_value) * 100]
    otherwise. *)
Theorem overlay_percent_change
    (details : list (string * (pyobj * pyobj))) (result_dict annotated : Snapshot)
    (asset : string) (e : Entry) (tax_free : pyobj) (average_buy : FVal) :
  NoDup details.*1 →
  overlay details result_dict = (annotated, None) →
  (asset, (tax_free, PyFVal average_buy)) ∈ details →
  combined result_dict !! asset = Some e →
  ∃ e',
    combined annotated !! asset = Some e' ∧
    tax_free_amount e' = Some tax_free ∧
    average_buy_value e' = Some (PyFVal average_buy) ∧
    percent_change e' =
      Some (if decide (average_buy = FVal_0) then PercentStr "INF"
            else PercentNum
                   (((entry_usd_value e / entry_amount e - average_buy)
                       / average_buy) * FVal_100)).
Proof.
  intros Hnd Hrun Hin He.
  destruct (overlay_annotated _ _ _ _ _ _ _ Hnd Hrun Hin He)
    as (e' & b & He' & [= <-] & _ & _ & _ & Htax & Hbuy & Hchange).
  by exists e'.
Qed.

(** The example of the spec: BTC worth 10000 for an amount of 1, bought
    at 8000, gets a [percent_change] of 25. *)
Lemma overlay_percent_change_witness :
  let result_dict :=
    {| combined := {[ "BTC" := entry_at (sample_env None) (Qc_of_Z 10500)
                                 (mkBalance 1 (Qc_of_Z 10000)) ]};
       location := ∅;
       net_usd := Qc_of_Z 10500 |} in
  ∃ e',
    combined (overlay sample_details result_dict).1 !! "BTC" = Some e' ∧
    percent_change e' = Some (PercentNum (Qc_of_Z 25)).
Proof.
  intros result_dict.
  destruct (overlay_percent_change sample_details result_dict
              (overlay sample_details result_dict).1 "BTC"
              (entry_at (sample_env None) (Qc_of_Z 10500)
                 (mkBalance 1 (Qc_of_Z 10000)))
              (PyFVal 1) (Qc_of_Z 8000))
    as (e' & He' & _ & _ & Hchange).
  - apply (bool_decide_unpack _). by vm_compute.
  - by vm_compute.
  - apply list_elem_of_here.
  - by vm_compute.
  - exists e'. split; [done|]. rewrite Hchange.
    rewrite decide_False by (by vm_compute).
    do 2 f_equal. apply Qc_is_canon. by vm_compute.
Defined.

(** C6 as the spec has it fails: USD is in the snapshot and in the
    accountant's [details] with an average buy value of zero, and the
    overlay stores the string ['INF'] for it, not the string
    ['undefined']. *)
Lemma overlay_percent_change_counterexample :
  ∃ snapshot,
    query_balances (sample_env (Some sample_details)) sample_self false
      = Ok snapshot ∧
    average_buy_value <$> combined snapshot !! "USD"
      = Some (Some (PyFVal FVal_0)) ∧
    percent_change <$> combined snapshot !! "USD"
      = Some (Some (PercentStr "INF")) ∧
    percent_change <$> combined snapshot !! "USD"
      ≠ Some (Some (PercentStr "undefined")).
Proof.
  eexists. split; [by vm_compute|].
  split; [by vm_compute|].
  split; [by vm_compute|].
  vm_compute. intros [=].
Qed.

(** C7 on the code: with [sleep_secs] configured as 20 and all four
    exchanges connected, a pass of the main loop calls the hooks of
    poloniex and of kraken, in this order, and then sleeps 10. *)
Theorem main_loop_sleeps_ten :
  sleep_secs sample_all = 20%Z ∧
  main_loop sample_all [false; true] =
    [MainLogic (mkClient Poloniex "key" "secret");
     MainLogic (mkClient Kraken "key" "secret");
     Sleep 10].
Proof. split; reflexivity. Qed.

(** C8 on the code: without exchanges and with a block chain and a bank
    that hold nothing, [net_usd] is zero and [query_balances] raises in the
    first division of the percentages. *)
Theorem query_balances_empty_portfolio :
  query_sources empty_env fresh_self
    = Ok (<["banks" := ∅]> (<["blockchain" := ∅]> ∅)) ∧
  query_balances empty_env fresh_self false = Raise DecimalException.
Proof.
  split.
  - unfold query_sources. simpl.
    by rewrite query_fiat_balances_empty.
  - destruct (query_balances empty_env fresh_self false) as [s|e] eqn:Hq.
    + by apply query_balances_no_assets in Hq.
    + revert Hq. by vm_compute.
Qed.

(** C10: when the overlay step raises [AttributeError], [query_balances]
    returns the snapshot as the step left it; and when that happens in a
    pass of the loop, after earlier passes went through, every asset of the
    earlier passes that is in the snapshot keeps its [tax_free_amount],
    [average_buy_value] and [percent_change]. *)
Theorem query_balances_partial_overlay (env : Collaborators)
    (self : Rotkelchen) (save_data : bool)
    (balances : gmap string (gmap string Balance))
    (result_dict failed : Snapshot) :
  query_sources env self = Ok balances →
  valuation env balances = Ok result_dict →
  overlay_body env result_dict = (failed, Some AttributeError) →
  query_balances env self save_data = Ok failed ∧
  ∀ (done_items later : list (string * (pyobj * pyobj)))
    (item : string * (pyobj * pyobj)) (before : Snapshot),
    accountant_details env = Some (done_items ++ item :: later) →
    NoDup (done_items ++ item :: later).*1 →
    overlay done_items result_dict = (before, None) →
    (overlay_asset before item).2 ≠ None →
    ∀ (asset : string) (tax_free average_buy : pyobj) (e : Entry),
      (asset, (tax_free, average_buy)) ∈ done_items →
      combined result_dict !! asset = Some e →
      ∃ (e' : Entry) (b : FVal),
        combined failed !! asset = Some e' ∧
        average_buy = PyFVal b ∧
        tax_free_amount e' = Some tax_free ∧
        average_buy_value e' = Some average_buy ∧
        percent_change e' = Some (percent_change_of e b).
Proof.
  intros Hb Hval Hbody. split.
  - unfold query_balances, try_overlay. rewrite Hb; simpl.
    rewrite Hval; simpl. by rewrite Hbody.
  - intros done_items later item before Hdetails Hnd Hdone Hfail
      asset tax_free average_buy e Hin He.
    unfold overlay_body in Hbody.
    rewrite Hdetails, overlay_app, Hdone in Hbody. simpl in Hbody.
    rewrite fmap_app, fmap_cons in Hnd.
    apply NoDup_app in Hnd as (Hnd1 & Hfresh & _).
    destruct (overlay_annotated _ _ _ _ _ _ _ Hnd1 Hdone Hin He)
      as (e' & b & He' & -> & _ & _ & _ & Htax & Hbuy & Hchange).
    exists e', b. split; [|done].
    assert (asset ≠ item.1) as Hne.
    { intros ->. apply (Hfresh item.1); [|apply list_elem_of_here].
      by apply (list_elem_of_fmap_2 fst) in Hin. }
    pose proof (overlay_asset_other before item asset Hne) as Hother.
    destruct (overlay_asset before item) as [r [exc|]]; [|done].
    simpl in Hother. injection Hbody as -> _. by rewrite Hother.
Qed.

(** The snapshot of the example is annotated in part: BTC, reported
    before the broken item, has its [percent_change]; USD, the broken
    item, has its [tax_free_amount] and no [percent_change]. *)
Lemma query_balances_partial_overlay_witness :
  ∃ snapshot,
    query_balances (sample_env (Some sample_details_broken)) sample_self false
      = Ok snapshot ∧
    (percent_change <$> combined snapshot !! "BTC"
       = Some (Some (percent_change_of
                       (entry_at (sample_env None) (Qc_of_Z 10500)
                          (mkBalance 1 (Qc_of_Z 10000)))
                       (Qc_of_Z 8000)))) ∧
    (tax_free_amount <$> combined snapshot !! "USD"
       = Some (Some (PyFVal 0))) ∧
    (percent_change <$> combined snapshot !! "USD" = Some None).
Proof.
  pose (env := sample_env (Some sample_details_broken)).
  pose (balances := from_Ok ∅ (query_sources env sample_self)).
  pose (result_dict :=
    from_Ok (mkSnapshot ∅ ∅ FVal_0) (valuation env balances)).
  pose (failed := (overlay_body env result_dict).1).
  pose (before :=
    (overlay [("BTC", (PyFVal 1, PyFVal (Qc_of_Z 8000)))] result_dict).1).
  assert (query_sources env sample_self = Ok balances) as Hb
    by (vm_compute; reflexivity).
  assert (valuation env balances = Ok result_dict) as Hval
    by (vm_compute; reflexivity).
  assert (overlay_body env result_dict = (failed, Some AttributeError))
    as Hbody by (vm_compute; reflexivity).
  destruct (query_balances_partial_overlay env sample_self false balances
              result_dict failed Hb Hval Hbody) as [Hq Hkeep].
  exists failed. split; [done|].
  destruct (Hkeep [("BTC", (PyFVal 1, PyFVal (Qc_of_Z 8000)))] []
              ("USD", (PyFVal 0, PyOther AttributeError)) before)
    with (asset := "BTC") (tax_free := PyFVal 1)
         (average_buy := PyFVal (Qc_of_Z 8000))
         (e := entry_at (sample_env None) (Qc_of_Z 10500)
                 (mkBalance 1 (Qc_of_Z 10000)))
    as (e' & b & He' & [= <-] & _ & _ & Hchange).
  - reflexivity.
  - apply (bool_decide_unpack _). by vm_compute.
  - vm_compute; reflexivity.
  - vm_compute. discriminate.
  - apply list_elem_of_here.
  - vm_compute; reflexivity.
  - split; [by rewrite He'; simpl; rewrite Hchange|].
    split; vm_compute; reflexivity.
Defined.

(** ** The names of the credentials *)

Lemma list_ascii_of_string_app (s1 s2 : string) :
  Stdlib.Strings.String.list_ascii_of_string (s1 +:+ s2) =
    Stdlib.Strings.String.list_ascii_of_string s1 ++ Stdlib.Strings.String.list_ascii_of_string s2.
Proof. induction s1 as [|c s1 IH]; simpl; [done|]. by rewrite IH. Qed.

Lemma list_ascii_of_string_inj (s1 s2 : string) :
  Stdlib.Strings.String.list_ascii_of_string s1 = Stdlib.Strings.String.list_ascii_of_string s2 → s1 = s2.
Proof.
  intros H. rewrite <-(Stdlib.Strings.String.string_of_list_ascii_of_string s1).
  rewrite <-(Stdlib.Strings.String.string_of_list_ascii_of_string s2). by rewrite H.
Qed.

(** A suffix can be taken off both sides of an equation. *)
Lemma string_app_inj_suffix (s1 s2 suffix : string) :
  s1 +:+ suffix = s2 +:+ suffix → s1 = s2.
Proof.
  intros H. apply (f_equal Stdlib.Strings.String.list_ascii_of_string) in H.
  rewrite !list_ascii_of_string_app in H.
  apply app_inj_2 in H as [H _]; [|done].
  by apply list_ascii_of_string_inj.
Qed.

Lemma api_key_of_inj (name1 name2 : string) :
  api_key_of name1 = api_key_of name2 → name1 = name2.
Proof. apply string_app_inj_suffix. Qed.

Lemma secret_of_inj (name1 name2 : string) :
  secret_of name1 = secret_of name2 → name1 = name2.
Proof. apply string_app_inj_suffix. Qed.

(** The name of a key is never the name of a secret: the last letters
    differ. *)
Lemma api_key_of_secret_of (name1 name2 : string) :
  api_key_of name1 ≠ secret_of name2.
Proof.
  unfold api_key_of, secret_of. intros H.
  apply (f_equal (λ s, reverse (Stdlib.Strings.String.list_ascii_of_string s))) in H.
  rewrite !list_ascii_of_string_app, !reverse_app in H.
  discriminate H.
Qed.

Lemma secret_of_api_key_of (name1 name2 : string) :
  secret_of name1 ≠ api_key_of name2.
Proof. intros H. symmetry in H. by apply api_key_of_secret_of in H. Qed.

(** ** list.remove *)

Lemma list_remove_None (x : string) (l : list string) :
  list_remove x l = None ↔ x ∉ l.
Proof.
  induction l as [|y l IH]; simpl.
  - split; [intros _; apply not_elem_of_nil|done].
  - rewrite not_elem_of_cons. case_decide as Hxy.
    + split; [done|]. by intros [? _].
    + rewrite fmap_None, IH. split; [by split|by intros [_ ?]].
Qed.

Lemma list_remove_snoc (x : string) (l : list string) :
  x ∉ l → list_remove x (l ++ [x]) = Some l.
Proof.
  induction l as [|y l IH]; simpl; intros Hx.
  - by rewrite decide_True.
  - apply not_elem_of_cons in Hx as [Hxy Hx].
    by rewrite decide_False, IH.
Qed.

(** Without duplicates, what is left is the list without [x]. *)
Lemma list_remove_Some (x : string) (l l' : list string) :
  list_remove x l = Some l' →
  NoDup l →
  NoDup l' ∧ (x ∉ l') ∧ ∀ y, y ∈ l' ↔ y ∈ l ∧ y ≠ x.
Proof.
  revert l'. induction l as [|z l IH]; simpl; intros l' Hrem Hnd; [done|].
  apply NoDup_cons in Hnd as [Hz Hnd]. case_decide as Hxz.
  - injection Hrem as <-. subst z. split; [done|]. split; [done|].
    intros y. rewrite elem_of_cons. split.
    + intros Hy. split; [by right|]. by intros ->.
    + by intros [[->|Hy] Hne].
  - apply fmap_Some in Hrem as (l0 & Hrem & ->).
    destruct (IH l0 Hrem Hnd) as (Hnd0 & Hx0 & Hiff).
    split; [|split].
    + apply NoDup_cons. split; [|done]. rewrite Hiff. by intros [? _].
    + apply not_elem_of_cons. done.
    + intros y. rewrite !elem_of_cons, Hiff. split.
      * intros [->|[Hy Hne]]; [by split; [left|congruence]|by split; [right|]].
      * intros [[->|Hy] Hne]; [by left|by right].
Qed.

(** ** The registry of exchanges *)

(** [getattr] looks at the four exchange attributes only. *)
Lemma getattr_exchange_ext (self self' : Rotkelchen) (name : string) :
  poloniex self' = poloniex self →
  kraken self' = kraken self →
  bittrex self' = bittrex self →
  binance self' = binance self →
  getattr_exchange self' name = getattr_exchange self name.
Proof. unfold getattr_exchange. by intros -> -> -> ->. Qed.

Lemma getattr_setattr_exchange (self : Rotkelchen) (name : string)
    (class : exchange_class) (exchange : Client) :
  exchange_class_of name = Some class →
  getattr_exchange (setattr_exchange self name exchange) name
    = Ok (Some exchange).
Proof.
  unfold exchange_class_of, getattr_exchange, setattr_exchange.
  repeat case_decide; subst; try done; simpl; by rewrite ?decide_True.
Qed.

Lemma getattr_setattr_exchange_ne (self : Rotkelchen) (name other : string)
    (exchange : Client) :
  other ≠ name →
  getattr_exchange (setattr_exchange self name exchange) other
    = getattr_exchange self other.
Proof.
  intros Hne. unfold getattr_exchange, setattr_exchange; simpl.
  repeat case_decide; subst; done.
Qed.

(** What a call of [setup_exchange] that returns [True] has passed, and
    the instance that it leaves. *)
Lemma setup_exchange_success_inv (env : Collaborators) (self self' : Rotkelchen)
    (name api_key api_secret message : string) :
  setup_exchange env self name api_key api_secret = ((true, message), self') →
  ∃ class,
    secret_data self !! api_key_of name = None ∧
    secret_file self ≠ None ∧
    exchange_class_of name = Some class ∧
    (client_validate_api_key env (mkClient class api_key api_secret)).1 = true ∧
    message = "" ∧
    connected_exchanges self' = connected_exchanges self ++ [name] ∧
    secret_data self' =
      <[secret_of name := api_secret]>
        (<[api_key_of name := api_key]> (secret_data self)) ∧
    secret_file self' = Some (secret_data self') ∧
    sleep_secs self' = sleep_secs self ∧
    getattr_exchange self' name = Ok (Some (mkClient class api_key api_secret)) ∧
    ∀ other, other ≠ name →
      getattr_exchange self' other = getattr_exchange self other.
Proof.
  unfold setup_exchange.
  destruct (decide (is_Some (secret_data self !! api_key_of name)))
    as [|Hkey]; [done|].
  destruct (decide (secret_file self = None)) as [|Hfile]; [done|].
  destruct (exchange_class_of name) as [class|] eqn:Hclass; [|done].
  destruct (client_validate_api_key env _) as [[] msg] eqn:Hvalid;
    simpl; [|done].
  intros [= <- <-]. exists class. simpl. rewrite Hvalid.
  split; [by apply eq_None_not_Some|]. do 8 (split; [done|]). split.
  - rewrite <-(getattr_setattr_exchange self name class
                 (mkClient class api_key api_secret) Hclass).
    by apply getattr_exchange_ext.
  - intros other Hne.
    rewrite <-(getattr_setattr_exchange_ne self name other
                 (mkClient class api_key api_secret) Hne).
    by apply getattr_exchange_ext.
Qed.

(** The instance that [remove_exchange] leaves, case by case. *)
Lemma remove_exchange_inv (self : Rotkelchen) (name : string) :
  let '(out, self') := remove_exchange self name in
  (∀ other, getattr_exchange self' other = getattr_exchange self other) ∧
  sleep_secs self' = sleep_secs self ∧
  match out with
  | Returns (false, _) => self' = self
  | Returns (true, message) =>
      message = "" ∧
      is_Some (secret_data self !! api_key_of name) ∧
      is_Some (secret_data self !! secret_of name) ∧
      secret_data self' =
        delete (secret_of name) (delete (api_key_of name) (secret_data self)) ∧
      secret_file self' = Some (secret_data self') ∧
      list_remove name (connected_exchanges self)
        = Some (connected_exchanges self')
  | Raises (KeyError key) =>
      key = secret_of name ∧
      is_Some (secret_data self !! api_key_of name) ∧
      secret_data self !! secret_of name = None ∧
      secret_data self' = delete (api_key_of name) (secret_data self) ∧
      secret_file self' = secret_file self ∧
      connected_exchanges self' = connected_exchanges self
  | Raises ValueError =>
      is_Some (secret_data self !! api_key_of name) ∧
      is_Some (secret_data self !! secret_of name) ∧
      secret_data self' =
        delete (secret_of name) (delete (api_key_of name) (secret_data self)) ∧
      secret_file self' = secret_file self ∧
      connected_exchanges self' = connected_exchanges self ∧
      name ∉ connected_exchanges self
  end.
Proof.
  unfold remove_exchange.
  destruct (decide (secret_data self !! api_key_of name = None))
    as [|Hkey]; [done|].
  destruct (decide (secret_file self = None)) as [|Hfile]; [done|].
  apply not_eq_None_Some in Hkey. simpl.
  rewrite lookup_delete_ne by apply api_key_of_secret_of.
  destruct (secret_data self !! secret_of name) as [secret|] eqn:Hsecret.
  - destruct (list_remove name (connected_exchanges self))
      as [connected|] eqn:Hrem; simpl.
    + repeat split; eauto.
    + apply list_remove_None in Hrem. repeat split; eauto.
  - simpl. repeat split; eauto.
Qed.

(** ** Further properties of the code *)

(** What a block of [__init__] that returns has found in the secret
    data. *)
Lemma init_exchange_Returns (secret_data : gmap string string)
    (class : exchange_class) (name : string) (exchange : option Client) :
  init_exchange secret_data class (api_key_of name) (secret_of name)
    = Returns exchange →
  match exchange with
  | Some c =>
      client_class c = class ∧
      secret_data !! api_key_of name = Some (client_api_key c) ∧
      secret_data !! secret_of name = Some (client_api_secret c)
  | None => secret_data !! api_key_of name = None
  end.
Proof.
  unfold init_exchange.
  destruct (secret_data !! api_key_of name) as [key|]; [|by intros [= <-]].
  destruct (secret_data !! secret_of name) as [secret|]; [|done].
  by intros [= <-].
Qed.

(** The instance that [__init__] builds from the four exchange objects. *)
Lemma init_Returns (args : Args) (file : option (gmap string string))
    (self : Rotkelchen) :
  init args file = Returns self →
  let data := default ∅ file in
  init_exchange data Kraken (api_key_of "kraken") (secret_of "kraken")
    = Returns (kraken self) ∧
  init_exchange data Poloniex (api_key_of "poloniex") (secret_of "poloniex")
    = Returns (poloniex self) ∧
  init_exchange data Bittrex (api_key_of "bittrex") (secret_of "bittrex")
    = Returns (bittrex self) ∧
  init_exchange data Binance (api_key_of "binance") (secret_of "binance")
    = Returns (binance self) ∧
  connected_exchanges self =
    connected_if (kraken self) "kraken" ++
    connected_if (poloniex self) "poloniex" ++
    connected_if (bittrex self) "bittrex" ++
    connected_if (binance self) "binance" ∧
  secret_data self = data ∧
  secret_file self = file ∧
  sleep_secs self = args_sleep_secs args.
Proof.
  intros Hinit data. unfold init in Hinit.
  destruct (loglevel_of (loglevel args)) as [level|]; [|done].
  simpl in Hinit. fold data in Hinit.
  change "kraken_api_key" with (api_key_of "kraken") in Hinit.
  change "kraken_secret" with (secret_of "kraken") in Hinit.
  change "poloniex_api_key" with (api_key_of "poloniex") in Hinit.
  change "poloniex_secret" with (secret_of "poloniex") in Hinit.
  change "bittrex_api_key" with (api_key_of "bittrex") in Hinit.
  change "bittrex_secret" with (secret_of "bittrex") in Hinit.
  change "binance_api_key" with (api_key_of "binance") in Hinit.
  change "binance_secret" with (secret_of "binance") in Hinit.
  destruct (init_exchange data Kraken _ _) as [k|]; [|done].
  destruct (init_exchange data Poloniex _ _) as [p|]; [|done].
  destruct (init_exchange data Bittrex _ _) as [b|]; [|done].
  destruct (init_exchange data Binance _ _) as [n|]; [|done].
  simpl in Hinit. by injection Hinit as <-.
Qed.

(** X1: the instance that [__init__] returns connects exactly the
    exchanges, out of the four, whose key is in the secret file; none of
    them twice, each with its object and its two credentials. *)
Theorem init_connected_ok (args : Args) (file : option (gmap string string))
    (self : Rotkelchen) :
  init args file = Returns self →
  connected_ok self ∧
  secret_data self = default ∅ file ∧
  ∀ name,
    name ∈ connected_exchanges self ↔
    name ∈ ["kraken"; "poloniex"; "bittrex"; "binance"] ∧
    is_Some (default ∅ file !! api_key_of name).
Proof.
  intros Hinit.
  destruct (init_Returns args file self Hinit)
    as (Hk & Hp & Hb & Hn & Hconn & Hdata & _ & _).
  apply init_exchange_Returns in Hk, Hp, Hb, Hn.
  assert (∀ name exchange,
            getattr_exchange self name = Ok exchange →
            match exchange with
            | Some c =>
                default ∅ file !! api_key_of name = Some (client_api_key c) ∧
                default ∅ file !! secret_of name = Some (client_api_secret c)
            | None => default ∅ file !! api_key_of name = None
            end) as Hattr.
  { intros name exchange. unfold getattr_exchange.
    repeat case_decide; subst; try done; intros [= <-].
    - by destruct (poloniex self); [destruct Hp as (_ & ? & ?)|].
    - by destruct (kraken self); [destruct Hk as (_ & ? & ?)|].
    - by destruct (bittrex self); [destruct Hb as (_ & ? & ?)|].
    - by destruct (binance self); [destruct Hn as (_ & ? & ?)|]. }
  assert (∀ name,
            name ∈ connected_exchanges self ↔
            ∃ c, getattr_exchange self name = Ok (Some c)) as Hin.
  { intros name. rewrite Hconn, !elem_of_app. unfold getattr_exchange.
    destruct (kraken self), (poloniex self), (bittrex self), (binance self);
      simpl; rewrite ?list_elem_of_singleton, ?elem_of_nil;
      repeat case_decide; subst; split;
      try (intros [|[|[|]]]; by simplify_eq);
      try (intros [? [=]]); eauto 6. }
  split; [split|split; [done|]].
  - rewrite Hconn.
    destruct (kraken self), (poloniex self), (bittrex self), (binance self);
      simpl; apply (bool_decide_unpack _); by vm_compute.
  - apply Forall_forall. intros name Hname.
    apply Hin in Hname as [c Hc]. split; [by exists c|].
    apply Hattr in Hc as [Hkey Hsecret]. rewrite Hdata, Hkey, Hsecret. eauto.
  - intros name. rewrite Hin. split.
    + intros [c Hc]. split.
      * revert Hc. unfold getattr_exchange. rewrite !elem_of_cons.
        repeat case_decide; subst; try done; auto.
      * apply Hattr in Hc as [-> _]. eauto.
    + intros [Hname [key Hkey]].
      destruct (getattr_exchange self name) as [[c|]|] eqn:Hc.
      * by exists c.
      * apply Hattr in Hc. congruence.
      * rewrite !elem_of_cons, elem_of_nil in Hname.
        unfold getattr_exchange in Hc.
        destruct Hname as [->|[->|[->|[->|[]]]]]; by repeat case_decide.
Qed.

Lemma init_connected_ok_witness :
  ∃ self,
    init sample_args (Some sample_file) = Returns self ∧
    connected_exchanges self = ["kraken"; "binance"] ∧
    connected_ok self.
Proof.
  pose (self :=
    {| connected_exchanges := ["kraken"; "binance"];
       sleep_secs := 20;
       secret_data := sample_file;
       secret_file := Some sample_file;
       poloniex := None;
       kraken := Some (mkClient Kraken "key" "secret");
       bittrex := None;
       binance := Some (mkClient Binance "key2" "secret2") |}).
  assert (init sample_args (Some sample_file) = Returns self) as Hinit
    by (by vm_compute).
  exists self. split; [done|]. split; [done|].
  exact (proj1 (init_connected_ok _ _ _ Hinit)).
Defined.



(** X3: when the secret file holds the key of one of the four exchanges
    and not its secret, [__init__] raises and builds no instance. *)
Theorem init_key_without_secret (args : Args) (data : gmap string string)
    (name : string) :
  name ∈ ["kraken"; "poloniex"; "bittrex"; "binance"] →
  is_Some (data !! api_key_of name) →
  data !! secret_of name = None →
  ∃ e, init args (Some data) = Raises e.
Proof.
  intros Hname [key Hkey] Hsecret.
  destruct (init args (Some data)) as [self|e] eqn:Hinit; [|by exists e].
  exfalso.
  destruct (init_Returns args _ self Hinit)
    as (Hk & Hp & Hb & Hn & _).
  simpl in Hk, Hp, Hb, Hn.
  rewrite !elem_of_cons, elem_of_nil in Hname.
  unfold init_exchange in Hk, Hp, Hb, Hn.
  destruct Hname as [->|[->|[->|[->|[]]]]].
  - by rewrite Hkey, Hsecret in Hk.
  - by rewrite Hkey, Hsecret in Hp.
  - by rewrite Hkey, Hsecret in Hb.
  - by rewrite Hkey, Hsecret in Hn.
Qed.

Lemma init_key_without_secret_witness :
  init sample_args (Some {[ "bittrex_api_key" := "key" ]})
    = Raises (KeyError "bittrex_secret").
Proof.
  destruct (init_key_without_secret sample_args
              {[ "bittrex_api_key" := "key" ]} "bittrex")
    as [e He].
  - apply (bool_decide_unpack _). by vm_compute.
  - vm_compute. eauto.
  - by vm_compute.
  - rewrite He. revert He. vm_compute. by intros [= <-].
Defined.

(** The credentials of another exchange are not touched when those of
    [name] are deleted. *)
Lemma lookup_delete_credentials (data : gmap string string)
    (name other : string) :
  other ≠ name →
  delete (secret_of name) (delete (api_key_of name) data) !! api_key_of other
    = data !! api_key_of other ∧
  delete (secret_of name) (delete (api_key_of name) data) !! secret_of other
    = data !! secret_of other ∧
  delete (api_key_of name) data !! api_key_of other
    = data !! api_key_of other ∧
  delete (api_key_of name) data !! secret_of other
    = data !! secret_of other.
Proof.
  intros Hne.
  assert (api_key_of name ≠ api_key_of other)
    by (intros ?%api_key_of_inj; done).
  assert (secret_of name ≠ secret_of other)
    by (intros ?%secret_of_inj; done).
  pose proof (api_key_of_secret_of name other).
  pose proof (api_key_of_secret_of other name).
  by rewrite !lookup_delete_ne.
Qed.

(** X4: a call of [setup_exchange] that passes the checks and the
    validation returns [(True, '')]; it appends the name to the connected
    exchanges, stores the object, adds the two credentials to the secret
    data and to nothing else of it, and dumps the secret data into the
    file. *)
Theorem setup_exchange_registers (env : Collaborators) (self : Rotkelchen)
    (name api_key api_secret : string) (class : exchange_class)
    (message : string) :
  secret_data self !! api_key_of name = None →
  secret_file self ≠ None →
  exchange_class_of name = Some class →
  client_validate_api_key env (mkClient class api_key api_secret)
    = (true, message) →
  ∃ self',
    setup_exchange env self name api_key api_secret = ((true, ""), self') ∧
    connected_exchanges self' = connected_exchanges self ++ [name] ∧
    getattr_exchange self' name
      = Ok (Some (mkClient class api_key api_secret)) ∧
    (∀ other, other ≠ name →
       getattr_exchange self' other = getattr_exchange self other) ∧
    secret_data self' !! api_key_of name = Some api_key ∧
    secret_data self' !! secret_of name = Some api_secret ∧
    (∀ key, key ≠ api_key_of name → key ≠ secret_of name →
       secret_data self' !! key = secret_data self !! key) ∧
    secret_file self' = Some (secret_data self').
Proof.
  intros Hkey Hfile Hclass Hvalid.
  destruct (setup_exchange env self name api_key api_secret)
    as [[ok msg] self'] eqn:Hsetup.
  assert (ok = true ∧ msg = "") as [-> ->].
  { revert Hsetup. unfold setup_exchange.
    rewrite decide_False by (rewrite Hkey; by intros [? ?]).
    rewrite decide_False by done. rewrite Hclass, Hvalid. simpl.
    by intros [= <- <- _]. }
  exists self'. split; [done|].
  apply setup_exchange_success_inv in Hsetup
    as (class' & _ & _ & Hclass' & _ & _ & Hconn & Hdata & Hsync & _
        & Hattr & Hother).
  assert (class' = class) as -> by congruence.
  split; [done|]. split; [done|]. split; [done|].
  split; [|split; [|split]]; [| | |done].
  - rewrite Hdata.
    rewrite lookup_insert_ne by (symmetry; apply api_key_of_secret_of).
    by rewrite lookup_insert_eq.
  - by rewrite Hdata, lookup_insert_eq.
  - intros key Hne1 Hne2. by rewrite Hdata, !lookup_insert_ne.
Qed.

Lemma setup_exchange_registers_witness :
  ∃ self',
    setup_exchange
      accepting_env
      sample_self "bittrex" "k" "s" = ((true, ""), self') ∧
    connected_exchanges self' = ["kraken"; "bittrex"] ∧
    secret_data self' !! "bittrex_api_key" = Some "k".
Proof.
  destruct (setup_exchange_registers
              accepting_env
              sample_self "bittrex" "k" "s" Bittrex "")
    as (self' & Hsetup & Hconn & _ & _ & Hkey & _); try done.
  by exists self'.
Defined.

(** X5: after a call of [setup_exchange] that returned [True], a second
    call for the same name is refused as already registered, whatever the
    key and the secret, and changes nothing. *)
Theorem setup_exchange_twice (env env' : Collaborators)
    (self self' : Rotkelchen)
    (name api_key api_secret api_key' api_secret' message : string) :
  setup_exchange env self name api_key api_secret = ((true, message), self') →
  setup_exchange env' self' name api_key' api_secret'
    = ((false, "Exchange {} is already registered"), self').
Proof.
  intros Hsetup.
  apply setup_exchange_success_inv in Hsetup
    as (class & _ & _ & _ & _ & _ & _ & Hdata & _).
  unfold setup_exchange. rewrite decide_True; [done|].
  rewrite Hdata.
  rewrite lookup_insert_ne by (symmetry; apply api_key_of_secret_of).
  rewrite lookup_insert_eq. eauto.
Qed.

Lemma setup_exchange_twice_witness :
  let env := accepting_env in
  let self' := (setup_exchange env sample_self "bittrex" "k" "s").2 in
  setup_exchange env self' "bittrex" "other key" "other secret"
    = ((false, "Exchange {} is already registered"), self').
Proof.
  intros env self'.
  apply (setup_exchange_twice env env sample_self self'
           "bittrex" "k" "s" "other key" "other secret" "").
  by vm_compute.
Defined.

(** X6: [setup_exchange] keeps the connected exchanges in order: after the
    call, whatever it returns, no exchange is connected twice and every
    connected exchange has its object and its two credentials. *)
Theorem setup_exchange_connected_ok (env : Collaborators) (self : Rotkelchen)
    (name api_key api_secret : string) :
  connected_ok self →
  connected_ok (setup_exchange env self name api_key api_secret).2.
Proof.
  intros [Hnd Hall].
  destruct (setup_exchange env self name api_key api_secret)
    as [[[] msg] self'] eqn:Hsetup; simpl.
  - apply setup_exchange_success_inv in Hsetup
      as (class & Hkey & _ & _ & _ & _ & Hconn & Hdata & _ & _
          & Hattr & Hother).
    rewrite Forall_forall in Hall.
    assert (name ∉ connected_exchanges self) as Hfresh.
    { intros Hin. destruct (Hall name Hin) as (_ & [? Hsome] & _).
      congruence. }
    split.
    + rewrite Hconn. apply NoDup_app. split; [done|].
      split; [|apply NoDup_singleton].
      intros x Hx ->%list_elem_of_singleton. done.
    + rewrite Hconn, Forall_app, Forall_singleton, Forall_forall, Hdata.
      split.
      * intros other Hin. destruct (Hall other Hin) as ([c Hc] & Hk & Hs).
        assert (other ≠ name) by (by intros ->).
        split; [exists c; by rewrite Hother|].
        split; apply lookup_insert_is_Some'; right;
          apply lookup_insert_is_Some'; by right.
      * split; [eauto|].
        split; [|apply lookup_insert_is_Some'; by left].
        apply lookup_insert_is_Some'; right.
        apply lookup_insert_is_Some'; by left.
  - apply setup_exchange_failure in Hsetup as ->. by split.
Qed.

Lemma setup_exchange_connected_ok_witness :
  connected_ok
    (setup_exchange
       accepting_env
       sample_self "bittrex" "k" "s").2.
Proof.
  apply setup_exchange_connected_ok. split.
  - apply (bool_decide_unpack _). by vm_compute.
  - repeat constructor; vm_compute; eauto.
Defined.

(** X7: a call of [remove_exchange] that returns [True] has deleted the
    key and the secret of the name from the secret data, and nothing else
    of it, has dumped the secret data into the file and has taken one
    occurrence of the name out of the connected exchanges; the exchange
    objects stay as they are, the one of the removed exchange included. *)
Theorem remove_exchange_removes (self self' : Rotkelchen)
    (name message : string) :
  remove_exchange self name = (Returns (true, message), self') →
  secret_data self' !! api_key_of name = None ∧
  secret_data self' !! secret_of name = None ∧
  (∀ key, key ≠ api_key_of name → key ≠ secret_of name →
     secret_data self' !! key = secret_data self !! key) ∧
  secret_file self' = Some (secret_data self') ∧
  list_remove name (connected_exchanges self)
    = Some (connected_exchanges self') ∧
  (NoDup (connected_exchanges self) → name ∉ connected_exchanges self') ∧
  ∀ other, getattr_exchange self' other = getattr_exchange self other.
Proof.
  intros Hrem. pose proof (remove_exchange_inv self name) as Hinv.
  rewrite Hrem in Hinv.
  destruct Hinv as (Hattr & _ & _ & _ & _ & Hdata & Hsync & Hconn).
  rewrite Hdata. split; [|split; [|split; [|split; [|split; [|split]]]]].
  - rewrite lookup_delete_ne by apply secret_of_api_key_of.
    apply lookup_delete_eq.
  - apply lookup_delete_eq.
  - intros key Hne1 Hne2. by rewrite !lookup_delete_ne.
  - by rewrite Hsync, Hdata.
  - done.
  - intros Hnd. by destruct (list_remove_Some _ _ _ Hconn Hnd) as (_ & ? & _).
  - done.
Qed.

Lemma remove_exchange_removes_witness :
  ∃ self',
    remove_exchange sample_self "kraken" = (Returns (true, ""), self') ∧
    connected_exchanges self' = [] ∧
    secret_data self' !! "kraken_api_key" = None ∧
    kraken self' = Some sample_kraken.
Proof.
  pose (self' := (remove_exchange sample_self "kraken").2).
  assert (remove_exchange sample_self "kraken" = (Returns (true, ""), self'))
    as Hrem by (by vm_compute).
  destruct (remove_exchange_removes _ _ _ _ Hrem) as (Hkey & _).
  exists self'. split; [done|]. split; [by vm_compute|].
  split; [exact Hkey|by vm_compute].
Defined.

(** X8: [setup_exchange] followed by [remove_exchange] for the same name
    gives back the connected exchanges and the secret data of before,
    when the name was not connected and had no secret stored; the file
    holds these secret data; the exchange object stays set. *)
Theorem setup_remove_exchange (env : Collaborators)
    (self registered : Rotkelchen)
    (name api_key api_secret message : string) :
  setup_exchange env self name api_key api_secret
    = ((true, message), registered) →
  name ∉ connected_exchanges self →
  secret_data self !! secret_of name = None →
  ∃ removed,
    remove_exchange registered name = (Returns (true, ""), removed) ∧
    connected_exchanges removed = connected_exchanges self ∧
    secret_data removed = secret_data self ∧
    secret_file removed = Some (secret_data self) ∧
    ∃ class,
      exchange_class_of name = Some class ∧
      getattr_exchange removed name
        = Ok (Some (mkClient class api_key api_secret)).
Proof.
  intros Hsetup Hfresh Hnosecret.
  apply setup_exchange_success_inv in Hsetup
    as (class & Hkey & _ & Hclass & _ & _ & Hconn & Hdata & Hsync & _
        & Hattr & _).
  assert (secret_data registered !! api_key_of name = Some api_key) as Hk.
  { rewrite Hdata, lookup_insert_ne by apply secret_of_api_key_of.
    apply lookup_insert_eq. }
  assert (secret_data registered !! secret_of name = Some api_secret) as Hs.
  { rewrite Hdata. apply lookup_insert_eq. }
  assert (delete (secret_of name)
            (delete (api_key_of name) (secret_data registered))
          = secret_data self) as Hback.
  { rewrite Hdata.
    rewrite delete_insert_ne by apply api_key_of_secret_of.
    rewrite delete_insert_eq, delete_insert_eq.
    rewrite (delete_id (secret_data self) (api_key_of name)) by done.
    by rewrite delete_id. }
  unfold remove_exchange.
  rewrite decide_False by (by rewrite Hk).
  rewrite decide_False by (by rewrite Hsync).
  simpl. rewrite lookup_delete_ne by apply api_key_of_secret_of.
  rewrite Hs, Hconn, list_remove_snoc by done.
  eexists. split; [reflexivity|]. simpl. rewrite Hback.
  do 3 (split; [done|]). exists class. split; [done|].
  rewrite <-Hattr. by apply getattr_exchange_ext.
Qed.

Lemma setup_remove_exchange_witness :
  let registered :=
    (setup_exchange accepting_env sample_self "bittrex" "k" "s").2 in
  ∃ removed,
    remove_exchange registered "bittrex" = (Returns (true, ""), removed) ∧
    connected_exchanges removed = ["kraken"] ∧
    secret_data removed = secret_data sample_self ∧
    bittrex removed = Some (mkClient Bittrex "k" "s").
Proof.
  intros registered.
  destruct (setup_remove_exchange accepting_env sample_self registered
              "bittrex" "k" "s" "")
    as (removed & Hrem & Hconn & Hdata & _ & class & Hclass & Hattr).
  - by vm_compute.
  - apply (bool_decide_unpack _). by vm_compute.
  - by vm_compute.
  - exists removed. do 3 (split; [done|]).
    injection Hclass as <-. revert Hattr. unfold getattr_exchange. simpl.
    by intros [= ->].
Defined.

(** X9: when both credentials of a name are stored and the name is not
    among the connected exchanges, [remove_exchange] raises [ValueError]
    after it has deleted the credentials from the secret data and before
    it writes the file: the file still holds the credentials that the
    secret data have lost. *)
Theorem remove_exchange_not_connected (self : Rotkelchen) (name : string) :
  is_Some (secret_data self !! api_key_of name) →
  is_Some (secret_data self !! secret_of name) →
  secret_file self = Some (secret_data self) →
  name ∉ connected_exchanges self →
  ∃ self',
    remove_exchange self name = (Raises ValueError, self') ∧
    secret_data self' !! api_key_of name = None ∧
    secret_data self' !! secret_of name = None ∧
    secret_file self' = Some (secret_data self) ∧
    secret_file self' ≠ Some (secret_data self').
Proof.
  intros Hkey [secret Hsecret] Hfile Hnotin.
  unfold remove_exchange.
  rewrite decide_False by (by apply not_eq_None_Some).
  rewrite decide_False by (by rewrite Hfile).
  simpl. rewrite lookup_delete_ne by apply api_key_of_secret_of.
  rewrite Hsecret.
  rewrite (proj2 (list_remove_None name (connected_exchanges self)) Hnotin).
  eexists. split; [reflexivity|]. simpl.
  split; [|split; [|split; [done|]]].
  - rewrite lookup_delete_ne by apply secret_of_api_key_of.
    apply lookup_delete_eq.
  - apply lookup_delete_eq.
  - rewrite Hfile. intros [= Heq].
    apply (f_equal (λ m, m !! secret_of name)) in Heq.
    rewrite lookup_delete_eq, Hsecret in Heq. done.
Qed.

Lemma remove_exchange_not_connected_witness :
  let file : gmap string string :=
    {[ "gemini_api_key" := "key"; "gemini_secret" := "secret" ]} in
  ∃ self self',
    init sample_args (Some file) = Returns self ∧
    remove_exchange self "gemini" = (Raises ValueError, self') ∧
    secret_data self' = ∅ ∧
    secret_file self' = Some file.
Proof.
  intros file.
  pose (self := mkRotkelchen [] 20 file (Some file) None None None None).
  destruct (remove_exchange_not_connected self "gemini")
    as (self' & Hrem & _ & _ & Hfile & _).
  - vm_compute. eauto.
  - vm_compute. eauto.
  - done.
  - apply not_elem_of_nil.
  - exists self, self'. split; [by vm_compute|]. split; [done|].
    split; [|done]. revert Hrem. vm_compute. by intros [= <-].
Defined.

(** X10: when the key of a name is stored without its secret,
    [remove_exchange] raises [KeyError] for the secret after it has
    deleted the key from the secret data; the file is not written, and
    the next call finds the exchange not registered. *)
Theorem remove_exchange_key_without_secret (self : Rotkelchen)
    (name : string) :
  is_Some (secret_data self !! api_key_of name) →
  secret_data self !! secret_of name = None →
  secret_file self ≠ None →
  ∃ self',
    remove_exchange self name = (Raises (KeyError (secret_of name)), self') ∧
    secret_data self' = delete (api_key_of name) (secret_data self) ∧
    secret_file self' = secret_file self ∧
    connected_exchanges self' = connected_exchanges self ∧
    remove_exchange self' name
      = (Returns (false, "Exchange {} is not registered"), self').
Proof.
  intros Hkey Hsecret Hfile.
  unfold remove_exchange at 1.
  rewrite decide_False by (by apply not_eq_None_Some).
  rewrite decide_False by done.
  simpl. rewrite lookup_delete_ne by apply api_key_of_secret_of.
  rewrite Hsecret.
  eexists. split; [reflexivity|]. simpl. do 3 (split; [done|]).
  unfold remove_exchange. simpl.
  by rewrite decide_True by apply lookup_delete_eq.
Qed.

Lemma remove_exchange_key_without_secret_witness :
  let file : gmap string string := {[ "gemini_api_key" := "key" ]} in
  ∃ self self',
    init sample_args (Some file) = Returns self ∧
    remove_exchange self "gemini"
      = (Raises (KeyError "gemini_secret"), self') ∧
    secret_data self' = ∅ ∧
    secret_file self' = Some file.
Proof.
  intros file.
  pose (self := mkRotkelchen [] 20 file (Some file) None None None None).
  destruct (remove_exchange_key_without_secret self "gemini")
    as (self' & Hrem & Hdata & Hfile & _).
  - vm_compute. eauto.
  - by vm_compute.
  - done.
  - exists self, self'. split; [by vm_compute|]. split; [done|].
    split; [|done]. rewrite Hdata. by vm_compute.
Defined.

(** X11: [remove_exchange] keeps the connected exchanges in order: after
    the call, whatever it returns or raises, no exchange is connected
    twice and every connected exchange has its object and its two
    credentials. *)
Theorem remove_exchange_connected_ok (self : Rotkelchen) (name : string) :
  connected_ok self →
  connected_ok (remove_exchange self name).2.
Proof.
  intros [Hnd Hall]. rewrite Forall_forall in Hall.
  pose proof (remove_exchange_inv self name) as Hinv.
  destruct (remove_exchange self name) as [out self']. simpl.
  destruct Hinv as (Hattr & _ & Hinv).
  assert (∀ connected,
            NoDup connected →
            (∀ other, other ∈ connected →
                      other ∈ connected_exchanges self ∧ other ≠ name) →
            connected_exchanges self' = connected →
            (secret_data self' =
               delete (secret_of name)
                 (delete (api_key_of name) (secret_data self)) ∨
             secret_data self' = delete (api_key_of name) (secret_data self)) →
            connected_ok self') as Hok.
  { intros connected Hnd' Hsub Hconn Hdata. split; [by rewrite Hconn|].
    rewrite Hconn. apply Forall_forall. intros other Hin.
    destruct (Hsub other Hin) as [Hin' Hne].
    destruct (Hall other Hin') as ([c Hc] & Hk & Hs).
    destruct (lookup_delete_credentials (secret_data self) name other Hne)
      as (H1 & H2 & H3 & H4).
    split; [exists c; by rewrite Hattr|].
    destruct Hdata as [-> | ->]; by rewrite ?H1, ?H2, ?H3, ?H4. }
  destruct out as [[[] msg]|[key|]].
  - destruct Hinv as (_ & _ & _ & Hdata & _ & Hrem).
    destruct (list_remove_Some _ _ _ Hrem Hnd) as (Hnd' & _ & Hiff).
    apply (Hok (connected_exchanges self')); auto.
    intros other Hin. by apply Hiff.
  - subst self'. split; [done|]. by apply Forall_forall.
  - destruct Hinv as (_ & _ & Hnone & Hdata & _ & Hconn).
    apply (Hok (connected_exchanges self)); auto.
    intros other Hin. split; [done|]. intros ->.
    destruct (Hall name Hin) as (_ & _ & [? Hsome]). congruence.
  - destruct Hinv as (_ & _ & Hdata & _ & Hconn & Hnotin).
    apply (Hok (connected_exchanges self)); auto.
    intros other Hin. split; [done|]. by intros ->.
Qed.

Lemma remove_exchange_connected_ok_witness :
  connected_ok (remove_exchange sample_self "kraken").2.
Proof.
  apply remove_exchange_connected_ok. split.
  - apply (bool_decide_unpack _). by vm_compute.
  - repeat constructor; vm_compute; eauto.
Defined.

(** ** Further properties of query_balances *)


Lemma query_exchanges_Ok (env : Collaborators) (self : Rotkelchen)
    (exchanges : list string) (balances : gmap string (gmap string Balance)) :
  Forall (λ name, ∃ c, getattr_exchange self name = Ok (Some c)) exchanges →
  ∃ balances',
    query_exchanges env self exchanges balances = Ok balances'.
Proof.
  intros Hall. revert balances.
  induction Hall as [|name rest [c Hc] _ IH]; intros balances; simpl.
  - eauto.
  - unfold exchange_query_balances. rewrite Hc. simpl. apply IH.
Qed.


(** The keys of [balances] are the connected exchanges and the keys that
    were there before. *)
Lemma query_exchanges_lookup (env : Collaborators) (self : Rotkelchen)
    (exchanges : list string)
    (balances balances' : gmap string (gmap string Balance)) (name : string) :
  query_exchanges env self exchanges balances = Ok balances' →
  is_Some (balances' !! name) ↔
  name ∈ exchanges ∨ is_Some (balances !! name).
Proof.
  revert balances. induction exchanges as [|x rest IH]; intros balances; simpl.
  - intros [= <-]. rewrite elem_of_nil. tauto.
  - destruct (exchange_query_balances env self x) as [b|]; simpl; [|done].
    intros Hq. rewrite (IH _ Hq), lookup_insert_is_Some', elem_of_cons.
    split; [intros [?|[->|?]]; auto|intros [[->|?]|?]; auto].
Qed.

Lemma valuation_Raise (env : Collaborators)
    (balances : gmap string (gmap string Balance)) (e : exn) :
  valuation env balances = Raise e → e = DecimalException.
Proof.
  intros Hval.
  destruct (decide (sum_usd_value
                      (utils.combine_stat_dicts (map_to_list balances).*2)
                    = FVal_0)) as [Hzero|Hnet].
  - destruct (decide (balances = ∅)) as [->|Hne].
    + by rewrite valuation_empty in Hval.
    + rewrite valuation_zero in Hval by done. by injection Hval as <-.
  - by rewrite (valuation_Ok env balances Hnet) in Hval.
Qed.

(** Every entry that the valuation stores is without the fields of the
    overlay. *)
Lemma valuation_entries (env : Collaborators)
    (balances : gmap string (gmap string Balance)) (result_dict : Snapshot)
    (asset : string) (e : Entry) :
  valuation env balances = Ok result_dict →
  combined result_dict !! asset = Some e →
  tax_free_amount e = None ∧ average_buy_value e = None ∧
  percent_change e = None.
Proof.
  intros Hval He.
  destruct (decide (balances = ∅)) as [->|Hne].
  - rewrite valuation_empty in Hval. injection Hval as <-.
    simpl in He. by rewrite lookup_empty in He.
  - pose proof (valuation_Ok_inv env _ _ Hval Hne) as Hnet.
    rewrite (valuation_Ok env balances Hnet) in Hval.
    injection Hval as <-. simpl in He.
    apply lookup_fmap_Some in He as (v & <- & _). done.
Qed.

Lemma valuation_location_lookup (env : Collaborators)
    (balances : gmap string (gmap string Balance)) (result_dict : Snapshot)
    (name : string) :
  valuation env balances = Ok result_dict →
  is_Some (location result_dict !! name) ↔ is_Some (balances !! name).
Proof.
  intros Hval.
  destruct (decide (balances = ∅)) as [->|Hne].
  - rewrite valuation_empty in Hval. injection Hval as <-. simpl.
    by rewrite !lookup_empty.
  - pose proof (valuation_Ok_inv env _ _ Hval Hne) as Hnet.
    rewrite (valuation_Ok env balances Hnet) in Hval.
    injection Hval as <-. simpl.
    by rewrite !lookup_fmap, !fmap_is_Some.
Qed.

(** One pass of the overlay, and the whole of it, leave what the
    valuation stored for every asset. *)
Lemma overlay_asset_valued (r : Snapshot) (item : string * (pyobj * pyobj))
    (asset : string) :
  valued <$> combined (overlay_asset r item).1 !! asset
    = valued <$> combined r !! asset.
Proof.
  destruct (decide (asset = item.1)) as [->|Hne].
  - destruct item as [a [tax_free average_buy]]; simpl.
    overlay_asset_cases;
      rewrite ?insert_insert_eq, ?lookup_insert_eq, ?E; done.
  - by rewrite overlay_asset_other.
Qed.

Lemma overlay_valued (details : list (string * (pyobj * pyobj)))
    (r : Snapshot) (asset : string) :
  valued <$> combined (overlay details r).1 !! asset
    = valued <$> combined r !! asset.
Proof.
  revert r. induction details as [|item details IH]; intros r; simpl; [done|].
  pose proof (overlay_asset_valued r item asset) as H.
  destruct (overlay_asset r item) as [r1 [exc|]]; simpl in *; [done|].
  by rewrite IH.
Qed.

(** X12: on an instance whose connected exchanges all have their object,
    as [__init__], [setup_exchange] and [remove_exchange] leave it,
    [query_balances] does not raise [AttributeError]. *)
Theorem query_balances_connected_ok (env : Collaborators) (self : Rotkelchen)
    (save_data : bool) :
  connected_ok self →
  query_balances env self save_data ≠ Raise AttributeError.
Proof.
  intros [_ Hall]. unfold query_balances, query_sources.
  destruct (query_exchanges_Ok env self (connected_exchanges self) ∅)
    as [balances ->].
  { eapply Forall_impl; [exact Hall|]. by intros name [? _]. }
  simpl.
  destruct (valuation env _) as [result_dict|e] eqn:Hval; simpl.
  - unfold try_overlay.
    by destruct (overlay_body env result_dict) as [r [[]|]].
  - apply valuation_Raise in Hval as ->. done.
Qed.

Lemma query_balances_connected_ok_witness :
  connected_ok sample_self ∧
  query_balances (sample_env None) sample_self false ≠ Raise AttributeError.
Proof.
  assert (connected_ok sample_self) as Hok.
  { split.
    - apply (bool_decide_unpack _). by vm_compute.
    - repeat constructor; vm_compute; eauto. }
  split; [done|]. by apply query_balances_connected_ok.
Defined.



(** X14: the location breakdown of the snapshot that [query_balances]
    returns has an entry for every connected exchange, for ["blockchain"]
    and for ["banks"], and for nothing else. *)
Theorem query_balances_location_keys (env : Collaborators)
    (self : Rotkelchen) (save_data : bool) (snapshot : Snapshot)
    (name : string) :
  query_balances env self save_data = Ok snapshot →
  is_Some (location snapshot !! name) ↔
  name ∈ connected_exchanges self ∨ name = "blockchain" ∨ name = "banks".
Proof.
  intros Hq.
  apply query_balances_Ok in Hq as (balances & result_dict & Hb & Hval & Hov).
  apply try_overlay_Ok in Hov as (_ & -> & _).
  rewrite (valuation_location_lookup env balances result_dict name Hval).
  unfold query_sources in Hb.
  destruct (query_exchanges env self (connected_exchanges self) ∅)
    as [b|] eqn:Hex; [|done].
  simpl in Hb. injection Hb as <-.
  rewrite !lookup_insert_is_Some', (query_exchanges_lookup _ _ _ _ _ _ Hex).
  rewrite lookup_empty.
  split.
  - intros [ <- | [ <- | [ ? | Hnone ] ] ]; auto. by destruct Hnone.
  - intros [ ? | [ -> | -> ] ]; auto.
Qed.

Lemma query_balances_location_keys_witness :
  ∃ snapshot,
    query_balances (sample_env None) sample_self false = Ok snapshot ∧
    (is_Some (location snapshot !! "poloniex") ↔
     "poloniex" ∈ connected_exchanges sample_self
     ∨ "poloniex" = "blockchain" ∨ "poloniex" = "banks").
Proof.
  assert (∃ s, query_balances (sample_env None) sample_self false = Ok s)
    as [s Hs] by (vm_compute; eauto).
  exists s. split; [done|].
  exact (query_balances_location_keys _ _ _ _ _ Hs).
Defined.

(** X15: whatever the overlay does, and however it ends, it adds no
    asset, removes none and leaves the amount, the usd value and the
    percentage of every asset as the valuation stored them; what
    [save_balances_data] receives before the overlay has none of the
    fields of the overlay. *)
Theorem query_balances_saved (env : Collaborators) (self : Rotkelchen)
    (snapshot : Snapshot) :
  query_balances env self true = Ok snapshot →
  ∃ saved,
    saved_balances_data env self true = Some saved ∧
    net_usd snapshot = net_usd saved ∧
    location snapshot = location saved ∧
    ∀ asset,
      valued <$> combined snapshot !! asset
        = valued <$> combined saved !! asset ∧
      ∀ e, combined saved !! asset = Some e →
           tax_free_amount e = None ∧ average_buy_value e = None ∧
           percent_change e = None.
Proof.
  intros Hq.
  apply query_balances_Ok in Hq as (balances & result_dict & Hb & Hval & Hov).
  exists result_dict. unfold saved_balances_data. rewrite Hb. simpl.
  rewrite Hval. split; [done|].
  pose proof (try_overlay_Ok env _ _ Hov) as (Hnet & Hloc & _).
  split; [done|]. split; [done|]. intros asset. split.
  - revert Hov. unfold try_overlay, overlay_body.
    destruct (accountant_details env) as [details|].
    + pose proof (overlay_valued details result_dict asset) as Hkeep.
      destruct (overlay details result_dict) as [r [[]|]];
        intros; by simplify_eq.
    + by intros [= <-].
  - intros e He. by eapply valuation_entries.
Qed.

Lemma query_balances_saved_witness :
  ∃ snapshot saved,
    query_balances (sample_env (Some sample_details)) sample_self true
      = Ok snapshot ∧
    saved_balances_data (sample_env (Some sample_details)) sample_self true
      = Some saved ∧
    percent_change <$> combined saved !! "BTC" = Some None ∧
    valued <$> combined snapshot !! "BTC" = valued <$> combined saved !! "BTC".
Proof.
  pose (env := sample_env (Some sample_details)).
  pose (snapshot :=
    from_Ok (mkSnapshot ∅ ∅ FVal_0) (query_balances env sample_self true)).
  assert (query_balances env sample_self true = Ok snapshot) as Hq
    by (vm_compute; reflexivity).
  destruct (query_balances_saved env sample_self snapshot Hq)
    as (saved & Hsaved & _ & _ & Hassets).
  exists snapshot, saved. split; [done|]. split; [done|].
  destruct (Hassets "BTC") as [Hvalued Hnone]. split; [|done].
  destruct (combined saved !! "BTC") as [e|] eqn:He.
  - simpl. by destruct (Hnone e eq_refl) as (_ & _ & ->).
  - exfalso. revert Hsaved He. vm_compute. by intros [= <-].
Defined.

(** X16: an asset that the accountant does not report, or any asset as
    long as the accountant is not ready, has none of the fields of the
    overlay in the snapshot that [query_balances] returns. *)
Theorem query_balances_unreported (env : Collaborators) (self : Rotkelchen)
    (save_data : bool) (snapshot : Snapshot) (asset : string) (e : Entry) :
  query_balances env self save_data = Ok snapshot →
  unreported env asset →
  combined snapshot !! asset = Some e →
  tax_free_amount e = None ∧ average_buy_value e = None ∧
  percent_change e = None.
Proof.
  intros Hq Hun He.
  apply query_balances_Ok in Hq as (balances & result_dict & _ & Hval & Hov).
  apply (valuation_entries env balances result_dict asset e Hval).
  revert Hov Hun. unfold try_overlay, overlay_body, unreported.
  destruct (accountant_details env) as [details|].
  - intros Hov Hnotin.
    pose proof (overlay_other details result_dict asset Hnotin) as Hother.
    destruct (overlay details result_dict) as [r [[]|]];
      simplify_eq; simpl in *; congruence.
  - intros [= <-] _. done.
Qed.

Lemma query_balances_unreported_witness :
  ∃ snapshot e,
    query_balances
      (sample_env (Some [("BTC", (PyFVal 1, PyFVal (Qc_of_Z 8000)))]))
      sample_self false = Ok snapshot ∧
    combined snapshot !! "USD" = Some e ∧
    percent_change e = None.
Proof.
  pose (env := sample_env (Some [("BTC", (PyFVal 1, PyFVal (Qc_of_Z 8000)))])).
  pose (snapshot :=
    from_Ok (mkSnapshot ∅ ∅ FVal_0) (query_balances env sample_self false)).
  pose (e := default (entry_at env 1 (mkBalance 0 0))
               (combined snapshot !! "USD")).
  assert (query_balances env sample_self false = Ok snapshot) as Hq
    by (vm_compute; reflexivity).
  assert (combined snapshot !! "USD" = Some e) as He
    by (vm_compute; reflexivity).
  assert (unreported env "USD") as Hun
    by (apply (bool_decide_unpack _); vm_compute; reflexivity).
  exists snapshot, e. split; [exact Hq|]. split; [exact He|].
  exact (proj2 (proj2 (query_balances_unreported env sample_self false
                         snapshot "USD" e Hq Hun He))).
Defined.

(** X17: when the overlay comes to an asset of the snapshot whose amount
    is zero, the division for its current price raises, the [try] block
    does not catch it, and [query_balances] raises instead of returning a
    snapshot. *)
Theorem query_balances_zero_amount (env : Collaborators) (self : Rotkelchen)
    (save_data : bool) (balances : gmap string (gmap string Balance))
    (result_dict before : Snapshot)
    (done_items later : list (string * (pyobj * pyobj)))
    (asset : string) (tax_free average_buy : pyobj) (e : Entry) :
  query_sources env self = Ok balances →
  valuation env balances = Ok result_dict →
  accountant_details env
    = Some (done_items ++ (asset, (tax_free, average_buy)) :: later) →
  overlay done_items result_dict = (before, None) →
  combined before !! asset = Some e →
  entry_amount e = FVal_0 →
  query_balances env self save_data = Raise DecimalException.
Proof.
  intros Hb Hval Hdetails Hdone He Hzero.
  unfold query_balances, try_overlay, overlay_body.
  rewrite Hb; simpl. rewrite Hval; simpl.
  rewrite Hdetails, overlay_app, Hdone. simpl.
  rewrite He. simpl. rewrite Hzero, fval_div_zero. done.
Qed.

Lemma query_balances_zero_amount_witness :
  query_balances
    (dust_env (Some [("BTC", (PyFVal 1, PyFVal (Qc_of_Z 8000)))]))
    sample_self false = Raise DecimalException.
Proof.
  pose (env := dust_env (Some [("BTC", (PyFVal 1, PyFVal (Qc_of_Z 8000)))])).
  pose (balances := from_Ok ∅ (query_sources env sample_self)).
  pose (result_dict :=
    from_Ok (mkSnapshot ∅ ∅ FVal_0) (valuation env balances)).
  pose (e := default (entry_at env 1 (mkBalance 1 1))
               (combined result_dict !! "BTC")).
  assert (query_sources env sample_self = Ok balances) as Hb
    by (vm_compute; reflexivity).
  assert (valuation env balances = Ok result_dict) as Hval
    by (vm_compute; reflexivity).
  assert (combined result_dict !! "BTC" = Some e) as He
    by (vm_compute; reflexivity).
  assert (entry_amount e = FVal_0) as Hzero
    by (apply Qc_is_canon; vm_compute; reflexivity).
  exact (query_balances_zero_amount env sample_self false balances
           result_dict result_dict [] [] "BTC"
           (PyFVal 1) (PyFVal (Qc_of_Z 8000)) e
           Hb Hval eq_refl eq_refl He Hzero).
Defined.

(** ** query_fiat_balances, main_loop and the currency *)

Lemma query_fiat_balances_foldl (env : Collaborators)
    (currencies : list string) (result : gmap string Balance)
    (currency : string) :
  foldl
    (λ result currency,
       match personal_fiat env !! currency with
       | Some amount =>
           let usd_rate := query_fiat_pair env currency "USD" in
           <[currency := {| amount := amount;
                            usd_value := amount * usd_rate |}]> result
       | None => result
       end)
    result currencies !! currency =
  if decide (currency ∈ currencies) then
    match personal_fiat env !! currency with
    | Some amount =>
        Some (mkBalance amount (amount * query_fiat_pair env currency "USD"))
    | None => result !! currency
    end
  else result !! currency.
Proof.
  revert result. induction currencies as [|c l IH]; intros result.
  - destruct (decide (currency ∈ [])) as [Hin|_];
      [by apply elem_of_nil in Hin|done].
  - cbn [foldl]. rewrite IH.
    set (step :=
      match personal_fiat env !! c with
      | Some amount =>
          let usd_rate := query_fiat_pair env c "USD" in
          <[c := {| amount := amount; usd_value := amount * usd_rate |}]> result
      | None => result
      end).
    assert (c ≠ currency → step !! currency = result !! currency) as Hne.
    { intros Hne. unfold step.
      destruct (personal_fiat env !! c); by rewrite ?lookup_insert_ne. }
    assert (c = currency →
            step !! currency =
              match personal_fiat env !! currency with
              | Some amount =>
                  Some (mkBalance amount
                          (amount * query_fiat_pair env currency "USD"))
              | None => result !! currency
              end) as Heq.
    { intros ->. unfold step.
      destruct (personal_fiat env !! currency); by rewrite ?lookup_insert_eq. }
    destruct (decide (c = currency)) as [Hc|Hc].
    + rewrite (decide_True (P := currency ∈ c :: l))
        by (subst; apply list_elem_of_here).
      rewrite (Heq Hc).
      case_decide; by destruct (personal_fiat env !! currency).
    + rewrite (Hne Hc).
      destruct (decide (currency ∈ l)) as [Hin|Hnin].
      * by rewrite decide_True by (by apply list_elem_of_further).
      * rewrite decide_False; [done|].
        intros [->|?]%elem_of_cons; done.
Qed.

(** X18: [query_fiat_balances] has a balance for a currency exactly when
    the currency is one of [FIAT_CURRENCIES] and the user holds it; its
    usd value is the amount times the rate of the currency to USD. *)
Theorem query_fiat_balances_lookup (env : Collaborators) (currency : string) :
  query_fiat_balances env !! currency =
    if decide (currency ∈ FIAT_CURRENCIES env) then
      (λ amount,
         mkBalance amount (amount * query_fiat_pair env currency "USD"))
        <$> personal_fiat env !! currency
    else None.
Proof.
  unfold query_fiat_balances. rewrite query_fiat_balances_foldl.
  case_decide; [|done].
  by destruct (personal_fiat env !! currency).
Qed.

(** X19: the main loop runs one pass for every time that the shutdown
    event is found not set, and ends when it is found set at the top of a
    pass: nothing is called and nothing is slept after that. *)
Theorem main_loop_shutdown (self : Rotkelchen) (passes : nat)
    (later : list bool) :
  main_loop self (replicate passes false ++ true :: later)
    = mjoin (replicate passes (main_loop_body self)).
Proof.
  induction passes as [|n IH]; simpl; [done|]. by rewrite IH.
Qed.

(** X20: all that the main loop does is to call the [main_logic] of the
    poloniex object and of the kraken object and to sleep 10 seconds: no
    other exchange object is called, and [sleep_secs] is not looked at. *)
Theorem main_loop_events (self : Rotkelchen) (is_set : list bool)
    (ev : event) :
  ev ∈ main_loop self is_set →
  ev = Sleep 10 ∨
  ∃ c, ev = MainLogic c ∧ (poloniex self = Some c ∨ kraken self = Some c).
Proof.
  induction is_set as [|[] is_set IH]; simpl.
  - by intros ?%elem_of_nil.
  - by intros ?%elem_of_nil.
  - rewrite elem_of_app. intros [Hin|Hin]; [|by apply IH].
    destruct ev as [c|seconds].
    + right. exists c. split; [done|]. by apply main_loop_body_hooks.
    + left. revert Hin. unfold main_loop_body. rewrite !elem_of_app.
      intros [Hin|[Hin|Hin]].
      * destruct (poloniex self); [|by apply elem_of_nil in Hin].
        by apply list_elem_of_singleton in Hin.
      * destruct (kraken self); [|by apply elem_of_nil in Hin].
        by apply list_elem_of_singleton in Hin.
      * by apply list_elem_of_singleton in Hin as ->.
Qed.

Lemma main_loop_events_witness :
  MainLogic (mkClient Kraken "key" "secret")
    ∈ main_loop sample_all [false; false; true] ∧
  kraken sample_all = Some (mkClient Kraken "key" "secret").
Proof.
  assert (MainLogic (mkClient Kraken "key" "secret")
            ∈ main_loop sample_all [false; false; true]) as Hin.
  { apply list_elem_of_further, list_elem_of_here. }
  split; [done|].
  destruct (main_loop_events sample_all [false; false; true] _ Hin)
    as [?|(c & [= <-] & [?|?])]; done.
Defined.

(** X21: with USD as main currency and no rate stored yet,
    [usd_to_main_currency] raises [AttributeError]: the rate is read
    without having been set. *)
Theorem usd_to_main_currency_usd (env : Collaborators) (self : Currency)
    (amount : FVal) :
  main_currency self = "USD" →
  usd_to_main_currency_rate self = None →
  usd_to_main_currency env self amount = (Raise AttributeError, self).
Proof.
  intros Hmain Hrate. unfold usd_to_main_currency.
  rewrite decide_False by (rewrite Hmain; by intros [? _]).
  by rewrite Hrate.
Qed.

Lemma usd_to_main_currency_usd_witness :
  usd_to_main_currency (sample_env None) (mkCurrency "USD" None) 1
    = (Raise AttributeError, mkCurrency "USD" None).
Proof. by apply usd_to_main_currency_usd. Defined.

(** X22: the rate that [usd_to_main_currency] uses is asked for at most
    once: after a call that returns, the rate is stored, the result is the
    rate times the amount, and every later call multiplies by the same
    rate, whatever the rates are by then. *)
Theorem usd_to_main_currency_cached (env : Collaborators)
    (self self' : Currency) (amount converted : FVal) :
  usd_to_main_currency env self amount = (Ok converted, self') →
  ∃ rate,
    usd_to_main_currency_rate self' = Some rate ∧
    main_currency self' = main_currency self ∧
    converted = rate * amount ∧
    ∀ env' amount',
      usd_to_main_currency env' self' amount' = (Ok (rate * amount'), self').
Proof.
  unfold usd_to_main_currency at 1. case_decide as Hfetch; simpl.
  - intros [= <- <-]. eexists. do 3 (split; [done|]).
    intros env' amount'. unfold usd_to_main_currency. simpl.
    by rewrite decide_False by (by intros [_ ?]).
  - destruct (usd_to_main_currency_rate self) as [rate|] eqn:Hrate; [|done].
    intros [= <- <-]. exists rate. do 3 (split; [done|]).
    intros env' amount'. unfold usd_to_main_currency.
    rewrite decide_False by (rewrite Hrate; by intros [_ ?]).
    by rewrite Hrate.
Qed.

Lemma usd_to_main_currency_cached_witness :
  let env := sample_env None in
  ∃ self',
    usd_to_main_currency env (mkCurrency "EUR" None) (Qc_of_Z 3)
      = (Ok (query_fiat_pair env "USD" "EUR" * Qc_of_Z 3), self') ∧
    usd_to_main_currency_rate self' = Some (query_fiat_pair env "USD" "EUR").
Proof.
  intros env.
  assert (usd_to_main_currency env (mkCurrency "EUR" None) (Qc_of_Z 3)
          = (Ok (query_fiat_pair env "USD" "EUR" * Qc_of_Z 3),
             mkCurrency "EUR" (Some (query_fiat_pair env "USD" "EUR"))))
    as Hcall by reflexivity.
  destruct (usd_to_main_currency_cached _ _ _ _ _ Hcall)
    as (rate & Hrate & _).
  eexists. split; [exact Hcall|]. done.
Defined.

(** X23: [set_main_currency] with a currency other than USD stores the
    rate from USD to it, and [usd_to_main_currency] then multiplies by
    that rate, whatever [main_currency] is. *)
Theorem set_main_currency_rate (env env' : Collaborators) (self : Currency)
    (currency : string) (amount : FVal) :
  currency ≠ "USD" →
  (usd_to_main_currency env' (set_main_currency env self currency) amount).1
    = Ok (query_fiat_pair env "USD" currency * amount).
Proof.
  intros Hne. unfold usd_to_main_currency, set_main_currency. simpl.
  rewrite (decide_True (P := currency ≠ "USD")) by done.
  by rewrite decide_False by (by intros [_ ?]).
Qed.

Lemma set_main_currency_rate_witness :
  (usd_to_main_currency (sample_env None)
     (set_main_currency (sample_env None) (mkCurrency "USD" None) "EUR")
     (Qc_of_Z 3)).1
    = Ok (query_fiat_pair (sample_env None) "USD" "EUR" * Qc_of_Z 3).
Proof. by apply set_main_currency_rate. Defined.

(** X24: [set_main_currency] with USD leaves the stored rate as it is:
    [usd_to_main_currency] goes on multiplying by the rate of the currency
    that was set before. *)
Theorem set_main_currency_usd_keeps_rate (env env' : Collaborators)
    (self : Currency) (rate amount : FVal) :
  usd_to_main_currency_rate self = Some rate →
  (usd_to_main_currency env' (set_main_currency env self "USD") amount).1
    = Ok (rate * amount).
Proof.
  intros Hrate. unfold usd_to_main_currency, set_main_currency. simpl.
  rewrite Hrate. by rewrite decide_False by (by intros [_ ?]).
Qed.

Lemma set_main_currency_usd_keeps_rate_witness :
  let env := sample_env None in
  let eur := set_main_currency env (mkCurrency "USD" None) "EUR" in
  (usd_to_main_currency env (set_main_currency env eur "USD") (Qc_of_Z 3)).1
    = Ok (query_fiat_pair env "USD" "EUR" * Qc_of_Z 3).
Proof.
  intros env eur. by apply set_main_currency_usd_keeps_rate.
Defined.

(** X25: [set] never returns the answer of the poloniex object: it
    returns an error message, for fewer than two arguments or a first
    argument other than ['poloniex'], and otherwise raises
    [AttributeError], for want of a poloniex object or of the method
    [save_data]. *)
Theorem set_never_succeeds (format_args : list string → string)
    (poloniex_set : Client → list string → string) (self : Rotkelchen)
    (args : list string) :
  match set format_args poloniex_set self args with
  | Ok message => ∃ text, message = "ERROR: " +:+ text
  | Raise e =>
      e = AttributeError ∧ head args = Some "poloniex" ∧
      (2 ≤ length args)%nat
  end.
Proof.
  unfold set. destruct args as [|first [|second rest]].
  - by eexists.
  - by eexists.
  - case_decide as Hfirst.
    + subst first. simpl.
      destruct (poloniex self); (split; [done|split; [done|lia]]).
    + by eexists.
Qed.
